(** * Smokescreen configuration: trust store and identity resolution

    A shallow embedding of [pkg/smokescreen/config.go]: the certificate
    authority registry ([clientCasBySubjectKeyId]), the revocation table
    ([CrlByAuthorityKeyId]), their loaders ([populateClientCaMap],
    [SetupTls], [SetupCrls]) and the identity resolver installed by
    [Init] ([RoleFromRequest]).

    Go values are modelled as follows.
    - [[]byte] is [list byte]; [string] is [string] (a sequence of 8-bit
      characters, as in Go); the conversion [string(b)] is
      [string_of_list_byte].
    - A Go map is a reference that may be nil: [option (gmap string V)],
      [None] being the nil map.  Reading a nil map yields nothing, writing
      to it panics.
    - A pointer that may be nil is an [option].
    - A function returning [(v, err)] where [v] is only meaningful when
      [err == nil] returns a [result]; [ioutil.ReadFile], which may return
      data together with an error, returns a pair.
    - The functions of the Go standard library used by the file are the
      fields of the class [GoLib].
    - Console and logger output is a list of [Output] events; the text of
      each line is not modelled, only which statement wrote it and with
      which arguments.
    - Every assignment to a field of the shared [*Config], and every write
      to one of its maps, is recorded: the list [stores] of a [World]
      holds the configuration as it stood after each of them, in program
      order.  These are the states another goroutine holding the same
      [*Config] can read.
    - A loop that is not structural ([populateClientCaMap]) takes fuel;
      it is given enough. *)

From Stdlib Require Import Strings.String Strings.Byte Lists.List ZArith.
From stdpp Require Import base option gmap strings list fin_maps.

Set Default Proof Using "Type".
#[local] Set Warnings "-clear-no-such-hyp".
Local Open Scope string_scope.

Abbreviation bytes := (list byte).

#[global] Instance byte_eq_dec : EqDecision byte := Byte.byte_eq_dec.

(** ** Errors *)

(** A Go [error] value.  [missingRoleError] is the struct of the source;
    every other error (from [errors.New], the standard library, ...) is an
    [errorString]. *)
Inductive error : Type :=
| missingRoleError (msg : string)
| errorString (msg : string).

Definition MissingRoleError (s : string) : error := missingRoleError s.

Definition IsMissingRoleError (err : error) : bool :=
  match err with
  | missingRoleError _ => true
  | errorString _ => false
  end.

Inductive result (A : Type) : Type :=
| Ok (a : A)
| Err (e : error).
Arguments Ok {A} a.
Arguments Err {A} e.

(** ** Go maps *)

Abbreviation GoMap V := (option (gmap string V)).

Definition go_make {V} : GoMap V := Some ∅.

Definition go_get {V} (m : GoMap V) (k : string) : option V :=
  match m with
  | Some g => g !! k
  | None => None
  end.

Definition go_len {V} (m : GoMap V) : nat :=
  match m with
  | Some g => size g
  | None => 0
  end.

(** [m[k] = v]; [None] is the run-time panic on a nil map. *)
Definition go_set {V} (m : GoMap V) (k : string) (v : V) : option (GoMap V) :=
  match m with
  | Some g => Some (Some (<[k := v]> g))
  | None => None
  end.

Definition go_keys {V} (m : GoMap V) : list string :=
  match m with
  | Some g => (map_to_list g).*1
  | None => []
  end.

(** ** Types of the standard library *)

Module asn1.
Definition ObjectIdentifier := list Z.

(** [ObjectIdentifier.Equal]. *)
Fixpoint Equal (oi other : ObjectIdentifier) : bool :=
  match oi, other with
  | [], [] => true
  | a :: oi', b :: other' => if (a =? b)%Z then Equal oi' other' else false
  | _, _ => false
  end.
End asn1.

Module pkix.
Record Extension := {
  Id : asn1.ObjectIdentifier;
  Critical : bool;
  Value : bytes
}.

Record Name := { CommonName : string }.

(** Of a [TBSCertificateList] the file reads [Extensions] only; the
    remaining signed content is kept as [Raw]. *)
Record TBSCertificateList := {
  Raw : bytes;
  Extensions : list Extension
}.

Record CertificateList := {
  TBSCertList : TBSCertificateList;
  SignatureValue : bytes
}.
End pkix.

Module x509.
Record Certificate := {
  Raw : bytes;
  SubjectKeyId : bytes;
  Subject : pkix.Name
}.

Record CertPool := { certs : list Certificate }.

Definition NewCertPool : CertPool := {| certs := [] |}.
End x509.

Module pem.
Record Block := {
  Type_ : string;
  Headers : gmap string string;
  Bytes : bytes
}.
End pem.

Module tls.
Inductive ClientAuthType :=
| NoClientCert
| RequestClientCert
| RequireAnyClientCert
| VerifyClientCertIfGiven
| RequireAndVerifyClientCert.

Record Certificate := { Certificate_chain : list bytes }.

Record Config := {
  Certificates : list Certificate;
  ClientAuth : ClientAuthType;
  ClientCAs : option x509.CertPool
}.

Record ConnectionState := { PeerCertificates : list x509.Certificate }.
End tls.

Module http.
Record Request := {
  Header : gmap string (list string);
  TLS : option tls.ConnectionState
}.
End http.

Module regexp.
Record Regexp := { expr : string }.
End regexp.

Module logrus.
Record Logger := { }.
Definition New : Logger := Build_Logger.
End logrus.

(** RFC 5280, 4.2.1.1 *)
Record authKeyId := { authKeyId_Id : bytes }.

(** ** The standard library, as used by the file *)

Class GoLib := {
  ioutil_ReadFile : string → bytes * option error;
  x509_ParseCRL : bytes → result pkix.CertificateList;
  (** [asn1.Unmarshal(v, &authKeyId{})] *)
  asn1_Unmarshal : bytes → result authKeyId;
  CheckCRLSignature : x509.Certificate → pkix.CertificateList → option error;
  pem_Decode : bytes → option pem.Block * bytes;
  x509_ParseCertificate : bytes → result x509.Certificate;
  AppendCertsFromPEM : x509.CertPool → bytes → x509.CertPool * bool;
  tls_LoadX509KeyPair : string → string → result tls.Certificate;
  regexp_Compile : string → result regexp.Regexp;
  (** [pem.Decode] returns the rest of its input, and a found block has
      consumed at least one byte. *)
  pem_Decode_rest : ∀ data block rest,
    pem_Decode data = (Some block, rest) → length rest < length data
}.

(** ** The configuration *)

(** The result of running a function that may panic. *)
Inductive Exec (A : Type) : Type :=
| Done (a : A)
| Panicked (reason : string).
Arguments Done {A} a.
Arguments Panicked {A} reason.

(** The fields of [Config] that the functions below read or write.  [Ip],
    [Port], the CIDR lists, the timeouts, [MaintenanceFile],
    [StatsdClient], [EgressAcl], [SupportProxyProtocol],
    [AdditionalErrorMessageOnDeny] and [DisabledAclPolicyActions] are
    touched by none of them. *)
Record Config := {
  TlsConfig : option tls.Config;
  CrlByAuthorityKeyId : GoMap pkix.CertificateList;
  RoleFromRequest : option (http.Request → Exec (string * option error));
  clientCasBySubjectKeyId : GoMap x509.Certificate;
  Log : option logrus.Logger;
  hostExtractExpr : option regexp.Regexp
}.

Definition set_TlsConfig (v : option tls.Config) (c : Config) : Config :=
  {| TlsConfig := v;
     CrlByAuthorityKeyId := CrlByAuthorityKeyId c;
     RoleFromRequest := RoleFromRequest c;
     clientCasBySubjectKeyId := clientCasBySubjectKeyId c;
     Log := Log c;
     hostExtractExpr := hostExtractExpr c |}.

Definition set_CrlByAuthorityKeyId (v : GoMap pkix.CertificateList) (c : Config) : Config :=
  {| TlsConfig := TlsConfig c;
     CrlByAuthorityKeyId := v;
     RoleFromRequest := RoleFromRequest c;
     clientCasBySubjectKeyId := clientCasBySubjectKeyId c;
     Log := Log c;
     hostExtractExpr := hostExtractExpr c |}.

Definition set_RoleFromRequest (v : option (http.Request → Exec (string * option error)))
    (c : Config) : Config :=
  {| TlsConfig := TlsConfig c;
     CrlByAuthorityKeyId := CrlByAuthorityKeyId c;
     RoleFromRequest := v;
     clientCasBySubjectKeyId := clientCasBySubjectKeyId c;
     Log := Log c;
     hostExtractExpr := hostExtractExpr c |}.

Definition set_clientCasBySubjectKeyId (v : GoMap x509.Certificate) (c : Config) : Config :=
  {| TlsConfig := TlsConfig c;
     CrlByAuthorityKeyId := CrlByAuthorityKeyId c;
     RoleFromRequest := RoleFromRequest c;
     clientCasBySubjectKeyId := v;
     Log := Log c;
     hostExtractExpr := hostExtractExpr c |}.

Definition set_Log (v : option logrus.Logger) (c : Config) : Config :=
  {| TlsConfig := TlsConfig c;
     CrlByAuthorityKeyId := CrlByAuthorityKeyId c;
     RoleFromRequest := RoleFromRequest c;
     clientCasBySubjectKeyId := clientCasBySubjectKeyId c;
     Log := v;
     hostExtractExpr := hostExtractExpr c |}.

Definition set_hostExtractExpr (v : option regexp.Regexp) (c : Config) : Config :=
  {| TlsConfig := TlsConfig c;
     CrlByAuthorityKeyId := CrlByAuthorityKeyId c;
     RoleFromRequest := RoleFromRequest c;
     clientCasBySubjectKeyId := clientCasBySubjectKeyId c;
     Log := Log c;
     hostExtractExpr := v |}.

(** The zero value [Config{}]. *)
Definition zeroConfig : Config :=
  {| TlsConfig := None;
     CrlByAuthorityKeyId := None;
     RoleFromRequest := None;
     clientCasBySubjectKeyId := None;
     Log := None;
     hostExtractExpr := None |}.

(** ** Output *)

(** One constructor per printing statement of the file.  Identifiers are
    carried as the byte strings they are; the source prints them in
    hexadecimal. *)
Inductive Output : Type :=
| PrintError (err : error)
| LogParseCrlFailed (crlFile : string) (err : error)
| PrintAuthorityKeyUnreadable (err : error)
| LogNoAuthorityKeyIdentifier (crlFile : string)
| LogNoSuchCa (crlIssuerId : string)
| PrintLoadedCerts (n : nat)
| PrintCrlNotTrusted (err : error)
| PrintLoadedCrl (crlIssuerId : string)
| PrintNoCrlFor (k : string)
| PrintLoadedCa (subjectKeyId : bytes).

(** ** Execution *)

Record World := {
  config : Config;
  output : list Output;
  stores : list Config
}.

Definition M (A : Type) : Type := World → World * Exec A.

Definition ret {A} (a : A) : M A := λ w, (w, Done a).

Definition bind {A B} (m : M A) (k : A → M B) : M B :=
  λ w, match m w with
       | (w', Done a) => k a w'
       | (w', Panicked r) => (w', Panicked r)
       end.

#[global] Instance M_ret : MRet M := @ret.
#[global] Instance M_bind : MBind M := λ A B k m, bind m k.

Definition panic {A} (reason : string) : M A := λ w, (w, Panicked reason).

Definition emit (o : Output) : M unit :=
  λ w, ({| config := config w; output := output w ++ [o]; stores := stores w |}, Done tt).

Definition load : M Config := λ w, (w, Done (config w)).

(** An assignment to a field of the shared configuration. *)
Definition store (f : Config → Config) : M unit :=
  λ w, let c := f (config w) in
       ({| config := c; output := output w; stores := stores w ++ [c] |}, Done tt).

Definition start (c : Config) : World :=
  {| config := c; output := []; stores := [] |}.

Definition nil_dereference : string := "invalid memory address or nil pointer dereference".
Definition nil_map_write : string := "assignment to entry in nil map".
Definition index_out_of_range : string := "index out of range".

(** ** The identity resolvers installed by [Init] *)

Definition role_header : string := "X-Smokescreen-Role".

(** [fail := func(err error) (string, error) { return "", err }] *)
Definition fail_role (err : error) : Exec (string * option error) :=
  Done (EmptyString, Some err).

(** The closure of the branch [config.TlsConfig != nil &&
    config.TlsConfig.ClientCAs != nil]: the common name of the first peer
    certificate.  [req.TLS] is a pointer; it is nil for a request that did
    not arrive over TLS. *)
Definition RoleFromRequest_peerCertificate (req : http.Request)
    : Exec (string * option error) :=
  match http.TLS req with
  | None => Panicked nil_dereference
  | Some connState =>
      if (length (tls.PeerCertificates connState) =? 0)%nat then
        fail_role (MissingRoleError "client did not provide certificate")
      else
        match tls.PeerCertificates connState with
        | cert :: _ => Done (pkix.CommonName (x509.Subject cert), None)
        | [] => Panicked index_out_of_range
        end
  end.

(** The closure of the [else] branch: the value of the role header. *)
Definition RoleFromRequest_header (req : http.Request)
    : Exec (string * option error) :=
  let idHeader := default [] (http.Header req !! role_header) in
  if (length idHeader =? 0)%nat then
    fail_role (MissingRoleError "client did not send 'X-Smokescreen-Role' header")
  else if (1 <? length idHeader)%nat then
    fail_role (MissingRoleError "client sent multiple 'X-Smokescreen-Role' headers")
  else
    match idHeader with
    | v :: _ => Done (v, None)
    | [] => Panicked index_out_of_range
    end.

(** ** [SetupCrls] *)

Section Code.
Context `{GoLib}.

(** The loop over [certList.TBSCertList.Extensions]: the first extension
    with object identifier 2.5.29.35 whose value decodes decides the
    issuer id; an extension that fails to decode is reported and the
    search goes on. *)
Fixpoint findCrlIssuerId (extensions : list pkix.Extension) : M string :=
  match extensions with
  | [] => mret EmptyString
  | v :: extensions' =>
      if asn1.Equal (pkix.Id v) [2; 5; 29; 35]%Z then
        match asn1_Unmarshal (pkix.Value v) with
        | Err err =>
            emit (PrintAuthorityKeyUnreadable err);;
            findCrlIssuerId extensions'
        | Ok crlAuthorityKey =>
            mret (string_of_list_byte (authKeyId_Id crlAuthorityKey))
        end
      else findCrlIssuerId extensions'
  end.

(** The body of [for _, crlFile := range crlFiles].  The result is the
    value returned from inside the loop, or [None] when the loop runs to
    its end. *)
Fixpoint SetupCrls_loop (crlFiles : list string) : M (option error) :=
  match crlFiles with
  | [] => mret None
  | crlFile :: crlFiles' =>
      let '(crlBytes, err) := ioutil_ReadFile crlFile in
      match err with
      | Some err => emit (PrintError err);; mret (Some err)
      | None =>
          certList ← match x509_ParseCRL crlBytes with
                     | Ok certList => mret (Some certList)
                     | Err err => emit (LogParseCrlFailed crlFile err);; mret None
                     end;
          match certList with
          | None => panic nil_dereference
          | Some certList =>
              crlIssuerId ← findCrlIssuerId (pkix.Extensions (pkix.TBSCertList certList));
              if String.eqb crlIssuerId EmptyString then
                emit (LogNoAuthorityKeyIdentifier crlFile);;
                SetupCrls_loop crlFiles'
              else
                cfg ← load;
                match go_get (clientCasBySubjectKeyId cfg) crlIssuerId with
                | None =>
                    emit (LogNoSuchCa crlIssuerId);;
                    emit (PrintLoadedCerts (go_len (clientCasBySubjectKeyId cfg)));;
                    SetupCrls_loop crlFiles'
                | Some caCert =>
                    match CheckCRLSignature caCert certList with
                    | Some err =>
                        emit (PrintCrlNotTrusted err);;
                        SetupCrls_loop crlFiles'
                    | None =>
                        match go_set (CrlByAuthorityKeyId cfg) crlIssuerId certList with
                        | None => panic nil_map_write
                        | Some m =>
                            store (set_CrlByAuthorityKeyId m);;
                            emit (PrintLoadedCrl crlIssuerId);;
                            SetupCrls_loop crlFiles'
                        end
                    end
                end
          end
      end
  end.

(** [for k, _ := range config.clientCasBySubjectKeyId]: Go visits the keys
    in an unspecified order; here in the order of [map_to_list]. *)
Fixpoint warnMissingCrls (ks : list string) : M unit :=
  match ks with
  | [] => mret tt
  | k :: ks' =>
      cfg ← load;
      match go_get (CrlByAuthorityKeyId cfg) k with
      | Some _ => warnMissingCrls ks'
      | None => emit (PrintNoCrlFor k);; warnMissingCrls ks'
      end
  end.

(** What follows the loop: nothing when the loop returned an error,
    otherwise the check that all authorities have a list, and [return nil]. *)
Definition SetupCrls_finish (returned : option error) : M (option error) :=
  match returned with
  | Some err => mret (Some err)
  | None =>
      cfg ← load;
      warnMissingCrls (go_keys (clientCasBySubjectKeyId cfg));;
      mret None
  end.

Definition SetupCrls (crlFiles : list string) : M (option error) :=
  store (set_CrlByAuthorityKeyId go_make);;
  store (set_clientCasBySubjectKeyId go_make);;
  returned ← SetupCrls_loop crlFiles;
  SetupCrls_finish returned.

(** ** [populateClientCaMap] *)

(** The loop [for len(pemCerts) > 0].  It is cut after [fuel] calls of
    [pem.Decode], the result then being [None]; [populateClientCaMap]
    gives it as many as the input has bytes, which is always enough
    ([populateClientCaMap_loop_fuel]). *)
Fixpoint populateClientCaMap_loop (fuel : nat) (pemCerts : bytes) (ok : bool)
    : M (option bool) :=
  match pemCerts with
  | [] => mret (Some ok)
  | _ :: _ =>
      match fuel with
      | 0 => mret None
      | S fuel' =>
          let '(block, pemCerts') := pem_Decode pemCerts in
          match block with
          | None => mret (Some ok)
          | Some block =>
              if negb (String.eqb (pem.Type_ block) "CERTIFICATE")
                 || negb (size (pem.Headers block) =? 0)%nat
              then populateClientCaMap_loop fuel' pemCerts' ok
              else
                match x509_ParseCertificate (pem.Bytes block) with
                | Err _ => populateClientCaMap_loop fuel' pemCerts' ok
                | Ok cert =>
                    emit (PrintLoadedCa (x509.SubjectKeyId cert));;
                    cfg ← load;
                    match go_set (clientCasBySubjectKeyId cfg)
                                 (string_of_list_byte (x509.SubjectKeyId cert)) cert with
                    | None => panic nil_map_write
                    | Some m =>
                        store (set_clientCasBySubjectKeyId m);;
                        populateClientCaMap_loop fuel' pemCerts' true
                    end
                end
          end
      end
  end.

Definition populateClientCaMap (pemCerts : bytes) : M (option bool) :=
  populateClientCaMap_loop (length pemCerts) pemCerts false.

(** ** [SetupTls] *)

(** The pool is a pointer in the source and is filled in place; here the
    filled pool is returned. *)
Definition addCertsFromFile (pool : x509.CertPool) (fileName : string)
    : M (x509.CertPool * option error) :=
  let '(data, err) := ioutil_ReadFile fileName in
  populateClientCaMap data;;
  match err with
  | Some err => mret (pool, Some err)
  | None =>
      let '(pool', ok) := AppendCertsFromPEM pool data in
      if negb ok then
        mret (pool', Some (errorString "Failed to load any certificates from file"))
      else mret (pool', None)
  end.

Fixpoint SetupTls_loop (clientCAs : x509.CertPool) (clientCAFiles : list string)
    : M (x509.CertPool * option error) :=
  match clientCAFiles with
  | [] => mret (clientCAs, None)
  | caFile :: clientCAFiles' =>
      '(clientCAs', err) ← addCertsFromFile clientCAs caFile;
      match err with
      | Some err => mret (clientCAs', Some err)
      | None => SetupTls_loop clientCAs' clientCAFiles'
      end
  end.

Definition SetupTls (certFile keyFile : string) (clientCAFiles : list string)
    : M (option error) :=
  if String.eqb certFile EmptyString || String.eqb keyFile EmptyString then
    mret (Some (errorString "both certificate and key files must be specified to set up TLS"))
  else
    match tls_LoadX509KeyPair certFile keyFile with
    | Err err => mret (Some err)
    | Ok serverCert =>
        '(clientAuth, clientCAs, err) ←
          (if negb (length clientCAFiles =? 0)%nat then
             '(clientCAs, err) ← SetupTls_loop x509.NewCertPool clientCAFiles;
             mret (tls.VerifyClientCertIfGiven, clientCAs, err)
           else mret (tls.NoClientCert, x509.NewCertPool, None));
        match err with
        | Some err => mret (Some err)
        | None =>
            store (set_TlsConfig (Some {| tls.Certificates := [serverCert];
                                          tls.ClientAuth := clientAuth;
                                          tls.ClientCAs := Some clientCAs |}));;
            mret None
        end
    end.

(** ** [Init] *)

Definition hostExtractPattern : string := "^([^:]*)(:\d+)?$".

Definition Init : M (option error) :=
  cfg ← load;
  (if CrlByAuthorityKeyId cfg is None
   then store (set_CrlByAuthorityKeyId go_make) else mret tt);;
  cfg ← load;
  (if clientCasBySubjectKeyId cfg is None
   then store (set_clientCasBySubjectKeyId go_make) else mret tt);;
  cfg ← load;
  (if Log cfg is None then store (set_Log (Some logrus.New)) else mret tt);;
  match regexp_Compile hostExtractPattern with
  | Err err => store (set_hostExtractExpr None);; mret (Some err)
  | Ok re =>
      store (set_hostExtractExpr (Some re));;
      cfg ← load;
      match TlsConfig cfg ≫= tls.ClientCAs with
      | Some _ => store (set_RoleFromRequest (Some RoleFromRequest_peerCertificate))
      | None => store (set_RoleFromRequest (Some RoleFromRequest_header))
      end;;
      mret None
  end.

End Code.

(** ** The network ranges and the metrics client

    [SetDenyRanges], [SetAllowRanges] and [SetupStatsd] write fields of
    [Config] that none of the functions above reads or writes, and read
    no other.  These fields are kept in a record of their own,
    [ConfigRest]; the struct of the source is the two records side by
    side.  The functions neither print nor panic: they are plain state
    passing functions. *)

Module net.
Record IPNet := {
  IP : bytes;
  Mask : bytes
}.

(** The zero value [net.IPNet{}]. *)
Definition zeroIPNet : IPNet := {| IP := []; Mask := [] |}.
End net.

Module statsd.
Record Client := {
  Namespace : string;
  Tags : list string
}.

Definition set_Namespace (v : string) (client : Client) : Client :=
  {| Namespace := v; Tags := Tags client |}.
End statsd.

(** [net.ParseCIDR] (of which the code keeps the network only) and
    [statsd.New].  [DefaultStatsdNamespace] is a constant of the package
    that is declared in another file. *)
Class GoLibRest := {
  net_ParseCIDR : string → result net.IPNet;
  statsd_New : string → result statsd.Client;
  DefaultStatsdNamespace : string
}.

Record ConfigRest := {
  CidrBlacklist : list net.IPNet;
  CidrBlacklistExemptions : list net.IPNet;
  StatsdClient : option statsd.Client
}.

Definition set_CidrBlacklist (v : list net.IPNet) (c : ConfigRest) : ConfigRest :=
  {| CidrBlacklist := v;
     CidrBlacklistExemptions := CidrBlacklistExemptions c;
     StatsdClient := StatsdClient c |}.

Definition set_CidrBlacklistExemptions (v : list net.IPNet) (c : ConfigRest) : ConfigRest :=
  {| CidrBlacklist := CidrBlacklist c;
     CidrBlacklistExemptions := v;
     StatsdClient := StatsdClient c |}.

Definition set_StatsdClient (v : option statsd.Client) (c : ConfigRest) : ConfigRest :=
  {| CidrBlacklist := CidrBlacklist c;
     CidrBlacklistExemptions := CidrBlacklistExemptions c;
     StatsdClient := v |}.

Section CodeRest.
Context `{GoLibRest}.

(** The loop [for i, str := range rangeStrings] from index [i] on;
    [outRanges[i] = *ipnet] is the update of the slice at [i]. *)
Fixpoint parseRanges_loop (i : nat) (rangeStrings : list string)
    (outRanges : list net.IPNet) : list net.IPNet * option error :=
  match rangeStrings with
  | [] => (outRanges, None)
  | str :: rangeStrings' =>
      match net_ParseCIDR str with
      | Err err => (outRanges, Some err)
      | Ok ipnet => parseRanges_loop (S i) rangeStrings' (<[i := ipnet]> outRanges)
      end
  end.

Definition parseRanges (rangeStrings : list string) : list net.IPNet * option error :=
  parseRanges_loop 0 rangeStrings (replicate (length rangeStrings) net.zeroIPNet).

Definition SetDenyRanges (rangeStrings : list string) (c : ConfigRest)
    : ConfigRest * option error :=
  let '(outRanges, err) := parseRanges rangeStrings in
  (set_CidrBlacklist outRanges c, err).

Definition SetAllowRanges (rangeStrings : list string) (c : ConfigRest)
    : ConfigRest * option error :=
  let '(outRanges, err) := parseRanges rangeStrings in
  (set_CidrBlacklistExemptions outRanges c, err).

Definition SetupStatsdWithNamespace (addr namespace : string) (c : ConfigRest)
    : ConfigRest * option error :=
  if String.eqb addr EmptyString then (set_StatsdClient None c, None)
  else
    match statsd_New addr with
    | Err err => (c, Some err)
    | Ok client =>
        let c1 := set_StatsdClient (Some client) c in
        (set_StatsdClient (statsd.set_Namespace namespace <$> StatsdClient c1) c1, None)
    end.

Definition SetupStatsd (addr : string) (c : ConfigRest) : ConfigRest * option error :=
  SetupStatsdWithNamespace addr DefaultStatsdNamespace c.

End CodeRest.

(** * Notions used in the statements *)

(** ** Worlds *)

Definition add_output (out : list Output) (w : World) : World :=
  {| config := config w; output := output w ++ out; stores := stores w |}.

Definition add_store (c : Config) (w : World) : World :=
  {| config := c; output := output w; stores := stores w ++ [c] |}.

(** The world after the two assignments that open [SetupCrls]. *)
Definition reset_world (w : World) : World :=
  add_store (set_clientCasBySubjectKeyId go_make (set_CrlByAuthorityKeyId go_make (config w)))
    (add_store (set_CrlByAuthorityKeyId go_make (config w)) w).

(** ** What a reader of the shared configuration can observe *)



(** ** Operations *)


Section Notions.
Context `{GoLib}.



(** ** The issuer of a revocation list *)

(** The value [findCrlIssuerId] computes, without its output. *)
Fixpoint authorityKeyId (extensions : list pkix.Extension) : string :=
  match extensions with
  | [] => EmptyString
  | v :: extensions' =>
      if asn1.Equal (pkix.Id v) [2; 5; 29; 35]%Z then
        match asn1_Unmarshal (pkix.Value v) with
        | Err _ => authorityKeyId extensions'
        | Ok crlAuthorityKey => string_of_list_byte (authKeyId_Id crlAuthorityKey)
        end
      else authorityKeyId extensions'
  end.

Definition crlIssuerId (certList : pkix.CertificateList) : string :=
  authorityKeyId (pkix.Extensions (pkix.TBSCertList certList)).

Definition no_authorities (c : Config) : Prop :=
  ∀ k, go_get (clientCasBySubjectKeyId c) k = None.

(** What it takes for the loop to file [certList] under [k]: one of the
    files reads and parses to it, its authority key identifier decodes to
    the non-empty [k], the registry has an authority under [k], and that
    authority accepts the signature. *)
Definition installable (registry : GoMap x509.Certificate) (crlFiles : list string)
    (k : string) (certList : pkix.CertificateList) : Prop :=
  ∃ crlFile crlBytes caCert,
    crlFile ∈ crlFiles
    ∧ ioutil_ReadFile crlFile = (crlBytes, None)
    ∧ x509_ParseCRL crlBytes = Ok certList
    ∧ crlIssuerId certList = k
    ∧ k ≠ EmptyString
    ∧ go_get registry k = Some caCert
    ∧ CheckCRLSignature caCert certList = None.

(** [certList] is what one of the files reads and parses to, and [k] is
    its issuer id. *)
Definition offered (crlFiles : list string) (k : string)
    (certList : pkix.CertificateList) : Prop :=
  ∃ crlFile crlBytes,
    crlFile ∈ crlFiles
    ∧ ioutil_ReadFile crlFile = (crlBytes, None)
    ∧ x509_ParseCRL crlBytes = Ok certList
    ∧ crlIssuerId certList = k.

(** ** The invariant of the revocation table *)

Definition present (c : Config) (certList : pkix.CertificateList) : Prop :=
  ∃ k, go_get (CrlByAuthorityKeyId c) k = Some certList.

(** (a) the claimed authority key id maps to an authority of the registry
    and (b) that authority validates the signature of the list. *)
Definition bound_and_verified (c : Config) (certList : pkix.CertificateList) : Prop :=
  ∃ caCert,
    go_get (clientCasBySubjectKeyId c) (crlIssuerId certList) = Some caCert
    ∧ CheckCRLSignature caCert certList = None.


Definition revocation_sound (c : Config) : Prop :=
  ∀ certList, present c certList → bound_and_verified c certList.



(** All or nothing on a read failure: the call returns an error and
    leaves the table as it was. *)
Definition read_failure_keeps_table : Prop :=
  ∀ c crlFiles crlFile w' r,
    crlFile ∈ crlFiles →
    is_Some (ioutil_ReadFile crlFile).2 →
    SetupCrls crlFiles (start c) = (w', r) →
    (∃ err, r = Done (Some err))
    ∧ ∀ k, go_get (CrlByAuthorityKeyId (config w')) k = go_get (CrlByAuthorityKeyId c) k.

(** ** The certificates of a PEM stream *)

(** The blocks that successive calls of [pem.Decode] find in [data]. *)
Fixpoint pem_blocks (fuel : nat) (data : bytes) : list pem.Block :=
  match data, fuel with
  | [], _ | _, 0 => []
  | _ :: _, S fuel' =>
      match pem_Decode data with
      | (Some block, rest) => block :: pem_blocks fuel' rest
      | (None, _) => []
      end
  end.

(** A block is a well-formed certificate block when its type is
    CERTIFICATE, it has no headers and its bytes parse as a certificate. *)
Definition well_formed (block : pem.Block) (cert : x509.Certificate) : Prop :=
  pem.Type_ block = "CERTIFICATE"
  ∧ pem.Headers block = ∅
  ∧ x509_ParseCertificate (pem.Bytes block) = Ok cert.

(** The test of the loop body, and the certificate it then files. *)
Definition certificate_of (block : pem.Block) : option x509.Certificate :=
  if negb (String.eqb (pem.Type_ block) "CERTIFICATE")
     || negb (size (pem.Headers block) =? 0)%nat
  then None
  else match x509_ParseCertificate (pem.Bytes block) with
       | Ok cert => Some cert
       | Err _ => None
       end.

(** The certificates of the well-formed blocks of a stream, in order. *)
Definition loaded_certificates (pemCerts : bytes) : list x509.Certificate :=
  omap certificate_of (pem_blocks (length pemCerts) pemCerts).

(** The key of the registry: the subject key identifier, as a string. *)
Definition subjectKey (cert : x509.Certificate) : string :=
  string_of_list_byte (x509.SubjectKeyId cert).

Definition file_certificate (g : gmap string x509.Certificate) (cert : x509.Certificate)
    : gmap string x509.Certificate :=
  <[subjectKey cert := cert]> g.

End Notions.

(** ** A test fixture

    A small file system and toy codecs, used to run the code on concrete
    inputs.  One byte stands for a key: a certificate is the PEM stream
    [C k] (subject key id [k]), a revocation list is the byte string
    [R k s]: issued under authority key id [k], signed by the key [s].  The
    signature of a list verifies under a certificate when [s] is the
    certificate's key. *)
Module Fixture.

Definition no_such_file : error := errorString "open: no such file or directory".

Definition ca_pem : bytes := [x43; x01].
Definition two_ca_pem : bytes := [x4b; x09; x43; x00; x43; x01; x43; x02].
Definition good_crl : bytes := [x52; x01; x01].
Definition forged_crl : bytes := [x52; x01; x02].
Definition other_crl : bytes := [x52; x02; x02].
Definition garbage : bytes := [x00; x01].

Definition ReadFile (name : string) : bytes * option error :=
  if String.eqb name "ca.pem" then (ca_pem, None)
  else if String.eqb name "good.crl" then (good_crl, None)
  else if String.eqb name "forged.crl" then (forged_crl, None)
  else if String.eqb name "other.crl" then (other_crl, None)
  else if String.eqb name "garbage.crl" then (garbage, None)
  else if String.eqb name "server.pem" then ([x4b; x07], None)
  else ([], Some no_such_file).

Definition aki_extension (k : byte) : pkix.Extension :=
  {| pkix.Id := [2; 5; 29; 35]%Z; pkix.Critical := false; pkix.Value := [k] |}.

Definition crl (k s : byte) : pkix.CertificateList :=
  {| pkix.TBSCertList := {| pkix.Raw := [k]; pkix.Extensions := [aki_extension k] |};
     pkix.SignatureValue := [s] |}.

Definition ParseCRL (data : bytes) : result pkix.CertificateList :=
  match data with
  | [x52; k; s] => Ok (crl k s)
  | _ => Err (errorString "asn1: structure error")
  end.

Definition Unmarshal (value : bytes) : result authKeyId :=
  match value with
  | [] => Err (errorString "asn1: syntax error")
  | _ => Ok {| authKeyId_Id := value |}
  end.

Definition ca (k : byte) : x509.Certificate :=
  {| x509.Raw := [k];
     x509.SubjectKeyId := [k];
     x509.Subject := {| pkix.CommonName := "authority" |} |}.

Definition CheckSignature (cert : x509.Certificate) (l : pkix.CertificateList)
    : option error :=
  if bool_decide (pkix.SignatureValue l = x509.SubjectKeyId cert) then None
  else Some (errorString "x509: signature verification failure").

Definition Decode (data : bytes) : option pem.Block * bytes :=
  match data with
  | x43 :: k :: rest =>
      (Some {| pem.Type_ := "CERTIFICATE"; pem.Headers := ∅; pem.Bytes := [k] |}, rest)
  | x4b :: k :: rest =>
      (Some {| pem.Type_ := "PRIVATE KEY"; pem.Headers := ∅; pem.Bytes := [k] |}, rest)
  | _ => (None, data)
  end.

Definition ParseCertificate (der : bytes) : result x509.Certificate :=
  match der with
  | [k] => if bool_decide (k = x00) then Err (errorString "x509: malformed certificate")
           else Ok (ca k)
  | _ => Err (errorString "x509: malformed certificate")
  end.

Fixpoint pool_certs (data : bytes) : list x509.Certificate :=
  match data with
  | x43 :: k :: rest =>
      match ParseCertificate [k] with
      | Ok c => c :: pool_certs rest
      | Err _ => pool_certs rest
      end
  | _ => []
  end.

Definition AppendCerts (pool : x509.CertPool) (data : bytes) : x509.CertPool * bool :=
  ({| x509.certs := x509.certs pool ++ pool_certs data |},
   negb (length (pool_certs data) =? 0)%nat).

Definition LoadKeyPair (certFile keyFile : string) : result tls.Certificate :=
  match ReadFile certFile, ReadFile keyFile with
  | (c, None), (_, None) => Ok {| tls.Certificate_chain := [c] |}
  | (_, Some e), _ => Err e
  | _, (_, Some e) => Err e
  end.

Lemma Decode_rest data block rest :
  Decode data = (Some block, rest) → length rest < length data.
Proof.
  unfold Decode. intros Hd.
  destruct data as [|b data]; [discriminate|].
  destruct data as [|k tl]; [destruct b; discriminate|].
  destruct b; try discriminate; injection Hd as _ <-; simpl; lia.
Qed.

Definition lib : GoLib :=
  {| ioutil_ReadFile := ReadFile;
     x509_ParseCRL := ParseCRL;
     asn1_Unmarshal := Unmarshal;
     CheckCRLSignature := CheckSignature;
     pem_Decode := Decode;
     x509_ParseCertificate := ParseCertificate;
     AppendCertsFromPEM := AppendCerts;
     tls_LoadX509KeyPair := LoadKeyPair;
     regexp_Compile := λ s, Ok {| regexp.expr := s |};
     pem_Decode_rest := Decode_rest |}.

(** A configuration as [Init] leaves the zero value. *)
Definition fresh : Config := config (fst (@Init lib (start zeroConfig))).

(** The key under which authority [k] and its lists are filed. *)
Definition key (k : byte) : string := string_of_list_byte [k].

(** A configuration whose registry holds authority 1 and whose table holds
    a list of that authority. *)
Definition loaded : Config :=
  set_clientCasBySubjectKeyId (Some {[ key x01 := ca x01 ]})
    (set_CrlByAuthorityKeyId (Some {[ key x01 := crl x01 x01 ]}) fresh).

End Fixture.

(** Runs of the code on the fixture. *)
Section FixtureRuns.
#[local] Existing Instance Fixture.lib.

(** Authority 1 is loaded by [SetupTls], then its list is offered to
    [SetupCrls]. *)
Definition after_tls : World :=
  (SetupTls "server.pem" "server.pem" ["ca.pem"] (start Fixture.fresh)).1.


(** A reload of a configuration that holds authority 1 and a list. *)
Definition reloaded : World :=
  (SetupCrls ["good.crl"] (start Fixture.loaded)).1.

(** A configuration whose registry holds authorities 1 and 2 and whose
    table is empty. *)
Definition two_authorities : Config :=
  set_clientCasBySubjectKeyId
    (Some {[ Fixture.key x01 := Fixture.ca x01; Fixture.key x02 := Fixture.ca x02 ]})
    (set_CrlByAuthorityKeyId go_make Fixture.fresh).

(** TLS is set up without client CA files on the zero configuration, then
    [Init] runs. *)
Definition tls_only : World := (SetupTls "server.pem" "server.pem" [] (start zeroConfig)).1.

(** The second client CA file does not exist: the call fails after the
    first file was loaded. *)
Definition half_loaded : World :=
  (SetupTls "server.pem" "server.pem" ["ca.pem"; "missing.pem"] (start Fixture.fresh)).1.

(** An extension of another kind (2.5.29.20, the CRL number). *)
Definition crl_number : pkix.Extension :=
  {| pkix.Id := [2; 5; 29; 20]%Z; pkix.Critical := false; pkix.Value := [x02; x01; x07] |}.

(** An authority key identifier without value: it does not decode. *)
Definition empty_aki : pkix.Extension :=
  {| pkix.Id := [2; 5; 29; 35]%Z; pkix.Critical := false; pkix.Value := [] |}.

End FixtureRuns.

(** ** Notions for the loaders *)

Section NotionsLoaders.
Context `{GoLib}.

(** What the body of the loop of [populateClientCaMap] does to the world
    for one well-formed certificate, when the registry is not nil: a line
    of output, then the write to the registry. *)
Definition file_in_world (w : World) (cert : x509.Certificate) : World :=
  match clientCasBySubjectKeyId (config w) with
  | Some g =>
      add_store (set_clientCasBySubjectKeyId (Some (file_certificate g cert)) (config w))
        (add_output [PrintLoadedCa (x509.SubjectKeyId cert)] w)
  | None => w
  end.

(** The file reads without error and its bytes parse as a revocation
    list. *)
Definition reads_and_parses (crlFile : string) : Prop :=
  ∃ crlBytes certList,
    ioutil_ReadFile crlFile = (crlBytes, None) ∧ x509_ParseCRL crlBytes = Ok certList.

(** The extension is an authority key identifier (2.5.29.35) whose value
    decodes to [key]. *)
Definition decodes_to (v : pkix.Extension) (key : authKeyId) : Prop :=
  asn1.Equal (pkix.Id v) [2; 5; 29; 35]%Z = true
  ∧ asn1_Unmarshal (pkix.Value v) = Ok key.

(** The outputs that tell of a list that passed the lookup of its
    authority, or of an authority of the registry. *)
Definition tells_of_authority (o : Output) : Prop :=
  match o with
  | PrintCrlNotTrusted _ | PrintLoadedCrl _ | PrintNoCrlFor _ => True
  | _ => False
  end.

End NotionsLoaders.

(** ** Notions for the network ranges *)

Section NotionsRest.
Context `{GoLibRest}.

(** The networks of the strings that parse, up to the first that does
    not, and the error of that one. *)
Fixpoint parsed_prefix (rangeStrings : list string) : list net.IPNet * option error :=
  match rangeStrings with
  | [] => ([], None)
  | str :: rangeStrings' =>
      match net_ParseCIDR str with
      | Err err => ([], Some err)
      | Ok ipnet => (ipnet :: (parsed_prefix rangeStrings').1, (parsed_prefix rangeStrings').2)
      end
  end.

(** [ipnet] is the network that [str] parses to. *)
Definition parses_to (str : string) (ipnet : net.IPNet) : Prop :=
  net_ParseCIDR str = Ok ipnet.

End NotionsRest.

(** A second fixture: two ranges that parse, and a metrics address that
    resolves. *)
Module FixtureRest.

Definition ten : net.IPNet := {| net.IP := [x0a; x00; x00; x00]; net.Mask := [xff; x00; x00; x00] |}.
Definition lan : net.IPNet := {| net.IP := [xc0; xa8; x00; x00]; net.Mask := [xff; xff; x00; x00] |}.
Definition invalid_cidr : error := errorString "invalid CIDR address".
Definition no_such_host : error := errorString "lookup: no such host".

Definition ParseCIDR (str : string) : result net.IPNet :=
  if String.eqb str "10.0.0.0/8" then Ok ten
  else if String.eqb str "192.168.0.0/16" then Ok lan
  else Err invalid_cidr.

Definition New (addr : string) : result statsd.Client :=
  if String.eqb addr "127.0.0.1:8125"
  then Ok {| statsd.Namespace := EmptyString; statsd.Tags := [] |}
  else Err no_such_host.

Definition lib : GoLibRest :=
  {| net_ParseCIDR := ParseCIDR;
     statsd_New := New;
     DefaultStatsdNamespace := "smokescreen." |}.

(** A configuration with one denied range and a metrics client. *)
Definition configured : ConfigRest :=
  {| CidrBlacklist := [lan];
     CidrBlacklistExemptions := [];
     StatsdClient := Some {| statsd.Namespace := "old."; statsd.Tags := [] |} |}.

End FixtureRest.

(** * Properties *)

(** ** Running the monad *)

Lemma go_set_Some {V} (g : gmap string V) k v :
  go_set (Some g) k v = Some (Some (<[k := v]> g)).
Proof. reflexivity. Qed.

Lemma config_add_output out w : config (add_output out w) = config w.
Proof. reflexivity. Qed.

Lemma config_add_store c w : config (add_store c w) = c.
Proof. reflexivity. Qed.

Lemma add_output_nil w : add_output [] w = w.
Proof. destruct w; unfold add_output; simpl. by rewrite app_nil_r. Qed.

Lemma add_output_app out1 out2 w :
  add_output out2 (add_output out1 w) = add_output (out1 ++ out2) w.
Proof. unfold add_output; simpl. by rewrite app_assoc. Qed.

Lemma run_bind {A B} (m : M A) (k : A → M B) w :
  (m ≫= k) w = match m w with
                | (w', Done a) => k a w'
                | (w', Panicked r) => (w', Panicked r)
                end.
Proof. reflexivity. Qed.

Lemma run_mret {A} (a : A) w : (mret a : M A) w = (w, Done a).
Proof. reflexivity. Qed.

Lemma run_ret {A B} (a : A) (k : A → M B) w : (mret a ≫= k) w = k a w.
Proof. reflexivity. Qed.

Lemma run_emit {B} o (k : unit → M B) w : (emit o ≫= k) w = k tt (add_output [o] w).
Proof. reflexivity. Qed.

Lemma run_load {B} (k : Config → M B) w : (load ≫= k) w = k (config w) w.
Proof. reflexivity. Qed.

Lemma run_store {B} f (k : unit → M B) w :
  (store f ≫= k) w = k tt (add_store (f (config w)) w).
Proof. reflexivity. Qed.

Lemma run_panic {A B} r (k : A → M B) w : (panic r ≫= k) w = (w, Panicked r).
Proof. reflexivity. Qed.

(** Case analysis on membership in a concrete concatenation of outputs. *)
Ltac elem_cases H :=
  revert H;
  repeat (rewrite elem_of_app || rewrite elem_of_cons || rewrite elem_of_nil);
  naive_solver.

Section Facts.
Context `{GoLib}.

Lemma findCrlIssuerId_run extensions w :
  ∃ out, findCrlIssuerId extensions w = (add_output out w, Done (authorityKeyId extensions))
         ∧ ∀ n, PrintLoadedCerts n ∉ out.
Proof.
  revert w. induction extensions as [|v extensions IH]; intros w; simpl.
  - exists []. rewrite add_output_nil. split; [done|]. intros n; apply not_elem_of_nil.
  - destruct (asn1.Equal _ _); [|apply IH].
    destruct (asn1_Unmarshal _) as [k|err].
    + exists []. rewrite add_output_nil. split; [done|]. intros n; apply not_elem_of_nil.
    + rewrite run_emit. destruct (IH (add_output [PrintAuthorityKeyUnreadable err] w))
        as (out & -> & Hout).
      exists (PrintAuthorityKeyUnreadable err :: out).
      rewrite add_output_app. split; [done|].
      intros n [Hn|Hn]%elem_of_cons; [discriminate|by apply (Hout n)].
Qed.

(** ** The loop of [SetupCrls] over a registry without entries *)

(** No lookup succeeds, hence no list is installed: the loop writes output
    only. *)
Lemma SetupCrls_loop_no_authorities crlFiles w :
  no_authorities (config w) →
  ∃ out r, SetupCrls_loop crlFiles w = (add_output out w, r)
           ∧ ∀ n, PrintLoadedCerts n ∈ out → n = go_len (clientCasBySubjectKeyId (config w)).
Proof.
  intros Hno. revert w Hno.
  induction crlFiles as [|crlFile crlFiles IH]; intros w Hno; simpl.
  { exists [], (Done None). rewrite add_output_nil. split; [done|]. intros n Hn. elem_cases Hn. }
  destruct (ioutil_ReadFile crlFile) as [crlBytes [err|]].
  { rewrite run_emit. exists [PrintError err], (Done (Some err)). split; [done|].
    intros n Hn. elem_cases Hn. }
  destruct (x509_ParseCRL crlBytes) as [certList|err].
  2:{ rewrite run_bind, run_emit. simpl.
      exists [LogParseCrlFailed crlFile err], (Panicked nil_dereference). split; [done|].
      intros n Hn. elem_cases Hn. }
  rewrite run_ret, run_bind.
  destruct (findCrlIssuerId_run (pkix.Extensions (pkix.TBSCertList certList)) w)
    as (out1 & -> & Hout1).
  destruct (String.eqb _ _).
  - rewrite run_emit, add_output_app.
    destruct (IH (add_output (out1 ++ [LogNoAuthorityKeyIdentifier crlFile]) w) Hno)
      as (out & r & -> & Hout).
    rewrite add_output_app. eexists _, r. split; [done|].
    intros n Hn. elem_cases Hn.
  - rewrite run_load. simpl. rewrite Hno.
    rewrite run_emit, run_emit, !add_output_app.
    match goal with |- context [add_output ?o w] =>
      destruct (IH (add_output o w) Hno) as (out & r & -> & Hout) end.
    rewrite add_output_app. eexists _, r. split; [done|].
    intros n Hn. elem_cases Hn.
Qed.

(** ** The loop of [SetupCrls] over any registry *)

Lemma installable_cons registry crlFile crlFiles k certList :
  installable registry crlFiles k certList →
  installable registry (crlFile :: crlFiles) k certList.
Proof.
  intros (f & b & ca & Hf & ?). exists f, b, ca. split; [by apply list_elem_of_further|done].
Qed.

Lemma go_get_go_set {V} (m m' : GoMap V) k (v : V) k' v' :
  go_set m k v = Some m' →
  go_get m' k' = Some v' →
  (k' = k ∧ v' = v) ∨ go_get m k' = Some v'.
Proof.
  destruct m as [g|]; [|done]. intros [= <-]. simpl.
  destruct (decide (k = k')) as [->|Hne].
  - rewrite lookup_insert_eq. intros [= ->]. by left.
  - rewrite lookup_insert_ne by done. by right.
Qed.

(** The loop never touches the registry, and whatever the table holds at
    the end was there before or was [installable]. *)
Lemma SetupCrls_loop_installs crlFiles w w' r :
  SetupCrls_loop crlFiles w = (w', r) →
  clientCasBySubjectKeyId (config w') = clientCasBySubjectKeyId (config w)
  ∧ ∀ k certList,
      go_get (CrlByAuthorityKeyId (config w')) k = Some certList →
      go_get (CrlByAuthorityKeyId (config w)) k = Some certList
      ∨ installable (clientCasBySubjectKeyId (config w)) crlFiles k certList.
Proof.
  revert w. induction crlFiles as [|crlFile crlFiles IH]; intros w; simpl.
  { intros [= <- <-]. auto. }
  destruct (ioutil_ReadFile crlFile) as [crlBytes [err|]] eqn:Hread.
  { rewrite run_emit. intros [= <- <-]. auto. }
  destruct (x509_ParseCRL crlBytes) as [certList|err] eqn:Hparse.
  2:{ rewrite run_bind, run_emit. simpl. intros [= <- <-]. auto. }
  rewrite run_ret, run_bind.
  destruct (findCrlIssuerId_run (pkix.Extensions (pkix.TBSCertList certList)) w)
    as (out1 & -> & _).
  fold (crlIssuerId certList).
  destruct (String.eqb _ _) eqn:Hid.
  { rewrite run_emit. intros [Hcas Htab]%IH. split; [done|].
    intros k l [?|?]%Htab; eauto using installable_cons. }
  apply String.eqb_neq in Hid.
  rewrite run_load. simpl.
  destruct (go_get _ (crlIssuerId certList)) as [caCert|] eqn:Hca.
  2:{ rewrite !run_emit. intros [Hcas Htab]%IH. split; [done|].
      intros k l [?|?]%Htab; eauto using installable_cons. }
  destruct (CheckCRLSignature caCert certList) as [err|] eqn:Hsig.
  { rewrite run_emit. intros [Hcas Htab]%IH. split; [done|].
    intros k l [?|?]%Htab; eauto using installable_cons. }
  destruct (go_set _ _ _) as [m|] eqn:Hset.
  2:{ intros [= <- <-]. auto. }
  rewrite run_store, run_emit. intros [Hcas Htab]%IH. simpl in Hcas, Htab.
  split; [done|]. intros k l [Hin|?]%Htab; [|right; by apply installable_cons].
  destruct (go_get_go_set _ _ _ _ _ _ Hset Hin) as [[-> ->]|?]; [right|by left].
  exists crlFile, crlBytes, caCert. split; [apply list_elem_of_here|done].
Qed.

(** Processing [pre ++ post] is processing [pre] and, unless that returned
    or panicked, [post]. *)
Lemma SetupCrls_loop_app pre post w :
  SetupCrls_loop (pre ++ post) w =
    match SetupCrls_loop pre w with
    | (w1, Done None) => SetupCrls_loop post w1
    | stopped => stopped
    end.
Proof.
  revert w. induction pre as [|crlFile pre IH]; intros w; simpl; [done|].
  destruct (ioutil_ReadFile crlFile) as [crlBytes [err|]]; [by rewrite run_emit|].
  destruct (x509_ParseCRL crlBytes) as [certList|err]; [|by rewrite run_bind, run_emit].
  rewrite !run_ret, !run_bind.
  destruct (findCrlIssuerId_run (pkix.Extensions (pkix.TBSCertList certList)) w)
    as (out1 & -> & _).
  destruct (String.eqb _ _); [by rewrite !run_emit|].
  rewrite !run_load.
  destruct (go_get _ _) as [caCert|]; [|by rewrite !run_emit].
  destruct (CheckCRLSignature caCert certList); [by rewrite !run_emit|].
  destruct (go_set _ _ _); [|done].
  by rewrite !run_store, !run_emit.
Qed.

(** Files that read and parse are all processed, provided the table is
    not the nil map. *)
Lemma SetupCrls_loop_completes crlFiles w :
  (∀ crlFile, crlFile ∈ crlFiles →
     ∃ crlBytes certList,
       ioutil_ReadFile crlFile = (crlBytes, None) ∧ x509_ParseCRL crlBytes = Ok certList) →
  is_Some (CrlByAuthorityKeyId (config w)) →
  ∃ w', SetupCrls_loop crlFiles w = (w', Done None)
        ∧ is_Some (CrlByAuthorityKeyId (config w')).
Proof.
  revert w. induction crlFiles as [|crlFile crlFiles IH]; intros w Hok Hsome; simpl.
  { by exists w. }
  destruct (Hok crlFile) as (crlBytes & certList & -> & Hparse); [apply list_elem_of_here|].
  rewrite Hparse, run_ret, run_bind.
  assert (Hok' : ∀ f, f ∈ crlFiles → ∃ b l,
             ioutil_ReadFile f = (b, None) ∧ x509_ParseCRL b = Ok l).
  { intros f Hf. apply Hok. by apply list_elem_of_further. }
  destruct (findCrlIssuerId_run (pkix.Extensions (pkix.TBSCertList certList)) w)
    as (out1 & -> & _).
  destruct (String.eqb _ _); [rewrite run_emit; by apply IH|].
  rewrite run_load. simpl.
  destruct (go_get _ _) as [caCert|]; [|rewrite !run_emit; by apply IH].
  destruct (CheckCRLSignature caCert certList); [rewrite run_emit; by apply IH|].
  destruct Hsome as [g Hg]. rewrite Hg. simpl.
  rewrite run_store, run_emit. by apply IH.
Qed.

(** Over a registry without entries, a file that reads, parses and names
    an issuer is reported as having no authority, wherever it is in the
    list, if the loop runs to its end. *)
Lemma SetupCrls_loop_reports_no_ca crlFiles w w' crlFile crlBytes certList :
  no_authorities (config w) →
  crlFile ∈ crlFiles →
  ioutil_ReadFile crlFile = (crlBytes, None) →
  x509_ParseCRL crlBytes = Ok certList →
  crlIssuerId certList ≠ EmptyString →
  SetupCrls_loop crlFiles w = (w', Done None) →
  LogNoSuchCa (crlIssuerId certList) ∈ output w'.
Proof.
  intros Hno (pre & post & ->)%list_elem_of_split Hread Hparse Hid.
  rewrite SetupCrls_loop_app.
  destruct (SetupCrls_loop_no_authorities pre w Hno) as (out & r & -> & _).
  destruct r as [[err|]|reason]; [done| |done].
  simpl SetupCrls_loop. rewrite Hread, Hparse, run_ret, run_bind.
  destruct (findCrlIssuerId_run (pkix.Extensions (pkix.TBSCertList certList))
              (add_output out w)) as (out1 & -> & _).
  fold (crlIssuerId certList). apply String.eqb_neq in Hid. rewrite Hid.
  rewrite run_load, !config_add_output, Hno, !run_emit, !add_output_app.
  match goal with |- context [SetupCrls_loop post ?w1] =>
    destruct (SetupCrls_loop_no_authorities post w1 Hno) as (out2 & r & -> & _) end.
  intros [= <- _]. simpl.
  repeat (rewrite elem_of_app || rewrite elem_of_cons). naive_solver.
Qed.

(** ** [SetupCrls] as a whole *)

Lemma reset_world_no_authorities w : no_authorities (config (reset_world w)).
Proof. intros k. simpl. apply lookup_empty. Qed.

Lemma go_get_make {V} k : go_get (@go_make V) k = None.
Proof. apply lookup_empty. Qed.

Lemma go_keys_make {V} : go_keys (@go_make V) = [].
Proof. unfold go_keys, go_make. by rewrite map_to_list_empty. Qed.

Lemma SetupCrls_unfold crlFiles w :
  SetupCrls crlFiles w = (SetupCrls_loop crlFiles ≫= SetupCrls_finish) (reset_world w).
Proof. reflexivity. Qed.

(** [SetupCrls] is its loop run in the reset world; the closing loop over
    the registry has nothing to visit. *)
Lemma SetupCrls_run crlFiles w :
  ∃ out r, SetupCrls crlFiles w = (add_output out (reset_world w), r)
           ∧ SetupCrls_loop crlFiles (reset_world w) = (add_output out (reset_world w), r)
           ∧ ∀ n, PrintLoadedCerts n ∈ out → n = 0.
Proof.
  destruct (SetupCrls_loop_no_authorities crlFiles (reset_world w)
              (reset_world_no_authorities w)) as (out & r & Hloop & Hout).
  exists out, r. split; [|split; [done|]].
  - rewrite SetupCrls_unfold, run_bind, Hloop.
    destruct r as [[err|]|reason]; [done| |done].
    unfold SetupCrls_finish. rewrite run_load.
    change (clientCasBySubjectKeyId _) with (@go_make x509.Certificate).
    by rewrite go_keys_make.
  - intros n Hn. by rewrite (Hout n Hn).
Qed.

End Facts.


Section Revocation.
Context `{GoLib}.

(** C10: every call of [SetupCrls] starts by replacing the revocation
    table and then the authority registry by empty maps, and only then
    runs the loop over the files.  So when the call returns without
    error: the two resets are the only assignments it made, whenever a
    lookup of an authority failed the registry held 0 certificates, the
    registry is still empty, and the table holds no entry at all, hence
    none that was bound to an authority loaded before the call. *)
Theorem SetupCrls_resets_registry_first crlFiles c w' :
  SetupCrls crlFiles (start c) = (w', Done None) →
  SetupCrls_loop crlFiles (reset_world (start c)) = (w', Done None)
  ∧ stores w' = [set_CrlByAuthorityKeyId go_make c;
                 set_clientCasBySubjectKeyId go_make (set_CrlByAuthorityKeyId go_make c)]
  ∧ (∀ n, PrintLoadedCerts n ∈ output w' → n = 0)
  ∧ clientCasBySubjectKeyId (config w') = Some ∅
  ∧ CrlByAuthorityKeyId (config w') = Some ∅
  ∧ ∀ k, go_get (CrlByAuthorityKeyId (config w')) k = None.
Proof.
  destruct (SetupCrls_run crlFiles (start c)) as (out & r & -> & Hloop & Hout).
  intros [= <- ->]. split; [done|]. simpl.
  repeat split; try done; intros k; apply lookup_empty.
Qed.

(** C1, on the code: a file of the list that reads and parses to a list
    which names an authority that is in the registry when [SetupCrls] is
    called, and whose signature that authority accepts, is not in the
    table when [SetupCrls] returns: the registry was emptied on entry, the
    lookup of the authority fails and the list is reported as having no
    authority. *)
Theorem SetupCrls_drops_list_of_registered_authority
    c crlFiles crlFile crlBytes certList caCert w' :
  crlFile ∈ crlFiles →
  ioutil_ReadFile crlFile = (crlBytes, None) →
  x509_ParseCRL crlBytes = Ok certList →
  crlIssuerId certList = string_of_list_byte (x509.SubjectKeyId caCert) →
  crlIssuerId certList ≠ EmptyString →
  go_get (clientCasBySubjectKeyId c) (crlIssuerId certList) = Some caCert →
  CheckCRLSignature caCert certList = None →
  SetupCrls crlFiles (start c) = (w', Done None) →
  go_get (CrlByAuthorityKeyId (config w')) (crlIssuerId certList) = None
  ∧ LogNoSuchCa (crlIssuerId certList) ∈ output w'.
Proof.
  intros Hin Hread Hparse _ Hid _ _.
  destruct (SetupCrls_run crlFiles (start c)) as (out & r & -> & Hloop & _).
  intros [= <- ->]. split; [apply lookup_empty|].
  exact (SetupCrls_loop_reports_no_ca _ _ _ _ _ _
           (reset_world_no_authorities _) Hin Hread Hparse Hid Hloop).
Qed.

(** C2, on the code: when the files before it read and parse and a file
    reads but does not parse, the failure is logged and the next statement
    reads the extensions of the nil list: [SetupCrls] panics, and none of
    the files after it is looked at. *)
Theorem SetupCrls_parse_failure_panics c pre crlFile post crlBytes err :
  (∀ f, f ∈ pre →
     ∃ b certList, ioutil_ReadFile f = (b, None) ∧ x509_ParseCRL b = Ok certList) →
  ioutil_ReadFile crlFile = (crlBytes, None) →
  x509_ParseCRL crlBytes = Err err →
  ∃ w', SetupCrls (pre ++ crlFile :: post) (start c) = (w', Panicked nil_dereference)
        ∧ last (output w') = Some (LogParseCrlFailed crlFile err).
Proof.
  intros Hpre Hread Hparse.
  destruct (SetupCrls_loop_completes pre (reset_world (start c)) Hpre)
    as (w1 & Hloop & _); [by eexists|].
  exists (add_output [LogParseCrlFailed crlFile err] w1). split; [|apply last_snoc].
  rewrite SetupCrls_unfold, run_bind, SetupCrls_loop_app, Hloop. simpl SetupCrls_loop.
  by rewrite Hread, Hparse, run_bind, run_emit.
Qed.


End Revocation.

(** ** [Init] and the identity resolver *)

Section Identity.
Context `{GoLib}.

(** [Init] fails only when the host pattern does not compile; otherwise it
    makes the nil maps and installs the resolver chosen by the test
    [config.TlsConfig != nil && config.TlsConfig.ClientCAs != nil]. *)
Lemma Init_run w w' r :
  Init w = (w', r) →
  match regexp_Compile hostExtractPattern with
  | Err err => r = Done (Some err)
  | Ok _ =>
      r = Done None
      ∧ RoleFromRequest (config w') =
          Some (if TlsConfig (config w) ≫= tls.ClientCAs is Some _
                then RoleFromRequest_peerCertificate else RoleFromRequest_header)
  end
  ∧ TlsConfig (config w') = TlsConfig (config w)
  ∧ (∀ k, go_get (CrlByAuthorityKeyId (config w')) k
          = go_get (CrlByAuthorityKeyId (config w)) k)
  ∧ (∀ k, go_get (clientCasBySubjectKeyId (config w')) k
          = go_get (clientCasBySubjectKeyId (config w)) k).
Proof.
  unfold Init. destruct w as [[tlsc crl role cas lg re] out st].
  rewrite !run_load. simpl.
  destruct (regexp_Compile hostExtractPattern) as [re'|err];
    destruct crl as [crl|], cas as [cas|], lg as [lg|],
      tlsc as [[certs auth [pool|]]|];
    intros [= <- <-]; simpl; repeat split; intros; by rewrite ?lookup_empty.
Qed.

(** C6: when [Init] finds no client certificate pool (no TLS
    configuration, or one whose [ClientCAs] is nil), the resolver it
    installs reads the role header: a request without the header (or with
    an empty list of values) and a request with more than one value (equal
    or not) are refused with a missing role error, and a request with
    exactly one value gets that value, unchanged. *)
Theorem Init_header_strategy c w' :
  TlsConfig c ≫= tls.ClientCAs = None →
  Init (start c) = (w', Done None) →
  ∃ resolve,
    RoleFromRequest (config w') = Some resolve
    ∧ ∀ req,
        match http.Header req !! role_header with
        | None | Some [] =>
            ∃ msg, resolve req = Done (EmptyString, Some (MissingRoleError msg))
                   ∧ IsMissingRoleError (MissingRoleError msg) = true
        | Some [v] => resolve req = Done (v, None)
        | Some (_ :: _ :: _) =>
            ∃ msg, resolve req = Done (EmptyString, Some (MissingRoleError msg))
                   ∧ IsMissingRoleError (MissingRoleError msg) = true
        end.
Proof.
  intros Hpool Hinit. apply Init_run in Hinit as (Hrole & _).
  destruct (regexp_Compile hostExtractPattern); [|discriminate Hrole].
  destruct Hrole as [_ Hrole]. simpl in Hrole. rewrite Hpool in Hrole.
  exists RoleFromRequest_header. split; [done|]. intros req.
  unfold RoleFromRequest_header.
  destruct (http.Header req !! role_header) as [[|v [|v' vs]]|]; simpl; eauto.
Qed.

(** C8: when [Init] finds a client certificate pool, the resolver it
    installs reads the TLS connection of the request: without peer
    certificates the request is refused with a missing role error,
    otherwise the role is the common name of the subject of the first peer
    certificate. *)
Theorem Init_certificate_strategy c pool w' :
  TlsConfig c ≫= tls.ClientCAs = Some pool →
  Init (start c) = (w', Done None) →
  ∃ resolve,
    RoleFromRequest (config w') = Some resolve
    ∧ ∀ req connState,
        http.TLS req = Some connState →
        match tls.PeerCertificates connState with
        | [] =>
            ∃ msg, resolve req = Done (EmptyString, Some (MissingRoleError msg))
                   ∧ IsMissingRoleError (MissingRoleError msg) = true
        | cert :: _ => resolve req = Done (pkix.CommonName (x509.Subject cert), None)
        end.
Proof.
  intros Hpool Hinit. apply Init_run in Hinit as (Hrole & _).
  destruct (regexp_Compile hostExtractPattern); [|discriminate Hrole].
  destruct Hrole as [_ Hrole]. simpl in Hrole. rewrite Hpool in Hrole.
  exists RoleFromRequest_peerCertificate. split; [done|]. intros req connState Htls.
  unfold RoleFromRequest_peerCertificate. rewrite Htls.
  destruct (tls.PeerCertificates connState) as [|cert certs]; simpl; eauto.
Qed.

(** The two resolvers differ: on a TLS request without peer certificate
    that carries one role header, one resolves the role and the other
    does not. *)
Lemma resolvers_differ : RoleFromRequest_peerCertificate ≠ RoleFromRequest_header.
Proof.
  intros Heq.
  pose (req := {| http.Header := {[ role_header := ["payments-service"] ]};
                  http.TLS := Some {| tls.PeerCertificates := [] |} |}).
  assert (Hreq : RoleFromRequest_peerCertificate req = RoleFromRequest_header req)
    by (by rewrite Heq).
  vm_compute in Hreq. discriminate.
Qed.

(** [SetupTls] without client CA files reads no file but the key pair
    and stores a configuration whose pool is the new, empty, pool. *)
Lemma SetupTls_no_client_CAs certFile keyFile w w' r :
  SetupTls certFile keyFile [] w = (w', r) →
  r = Done None →
  ∃ serverCert,
    tls_LoadX509KeyPair certFile keyFile = Ok serverCert
    ∧ w' = add_store (set_TlsConfig (Some {| tls.Certificates := [serverCert];
                                              tls.ClientAuth := tls.NoClientCert;
                                              tls.ClientCAs := Some x509.NewCertPool |})
                        (config w)) w.
Proof.
  unfold SetupTls.
  destruct (_ || _); [by intros [= <- <-]|].
  destruct (tls_LoadX509KeyPair certFile keyFile) as [serverCert|err];
    [|by intros [= <- <-]].
  simpl. rewrite run_ret, run_store. intros [= <- <-] _. by exists serverCert.
Qed.

(** C7, on the code: after [SetupTls] was given no client CA file, the
    TLS configuration asks for no client certificate but its pool is the
    empty pool, not nil; [Init] then installs the resolver that reads the
    peer certificate, not the one that reads the role header. *)
Theorem Init_after_SetupTls_without_client_CAs c certFile keyFile w1 w2 :
  SetupTls certFile keyFile [] (start c) = (w1, Done None) →
  Init w1 = (w2, Done None) →
  (∃ tlsConfig,
     TlsConfig (config w2) = Some tlsConfig
     ∧ tls.ClientAuth tlsConfig = tls.NoClientCert
     ∧ tls.ClientCAs tlsConfig = Some x509.NewCertPool)
  ∧ RoleFromRequest (config w2) = Some RoleFromRequest_peerCertificate
  ∧ RoleFromRequest (config w2) ≠ Some RoleFromRequest_header.
Proof.
  intros Htls Hinit.
  apply SetupTls_no_client_CAs in Htls as (serverCert & _ & ->); [|done].
  apply Init_run in Hinit as (Hrole & Htlsc & _).
  destruct (regexp_Compile hostExtractPattern); [|discriminate Hrole].
  destruct Hrole as [_ Hrole]. simpl in Hrole, Htlsc.
  split; [eexists; split; [exact Htlsc|done]|].
  rewrite Hrole. split; [done|]. intros [= Heq]. by apply resolvers_differ.
Qed.

End Identity.

(** ** The authority registry *)

Lemma set_clientCasBySubjectKeyId_id c :
  set_clientCasBySubjectKeyId (clientCasBySubjectKeyId c) c = c.
Proof. by destruct c. Qed.

Lemma omap_cons {A B} (f : A → option B) x l :
  omap f (x :: l) = match f x with Some y => y :: omap f l | None => omap f l end.
Proof. reflexivity. Qed.

Section Registry.
Context `{GoLib}.

Lemma certificate_of_well_formed block cert :
  certificate_of block = Some cert ↔ well_formed block cert.
Proof.
  unfold certificate_of, well_formed.
  destruct (String.eqb_spec (pem.Type_ block) "CERTIFICATE") as [->|Hty]; simpl.
  - destruct (Nat.eqb_spec (size (pem.Headers block)) 0) as [Hsz|Hsz]; simpl.
    + apply map_size_empty_iff in Hsz.
      destruct (x509_ParseCertificate _); naive_solver.
    + split; [done|]. intros (_ & Hh & _). by rewrite Hh, map_size_empty in Hsz.
  - naive_solver.
Qed.

Lemma subjectKey_exact cert1 cert2 :
  subjectKey cert1 = subjectKey cert2 ↔ x509.SubjectKeyId cert1 = x509.SubjectKeyId cert2.
Proof.
  unfold subjectKey. split; [|by intros ->].
  intros Heq. apply (f_equal list_byte_of_string) in Heq.
  by rewrite !list_byte_of_string_of_list_byte in Heq.
Qed.

(** One unit of fuel per byte finds all the blocks: more fuel finds no
    more. *)
Lemma pem_blocks_fuel fuel1 fuel2 data :
  (length data ≤ fuel1)%nat → (length data ≤ fuel2)%nat →
  pem_blocks fuel1 data = pem_blocks fuel2 data.
Proof.
  revert fuel2 data. induction fuel1 as [|fuel1 IH]; intros fuel2 data Hfuel1 Hfuel2.
  { destruct data; [by destruct fuel2|simpl in Hfuel1; lia]. }
  destruct data as [|b data]; [by destruct fuel2|].
  destruct fuel2 as [|fuel2]; [simpl in Hfuel2; lia|]. simpl.
  destruct (pem_Decode (b :: data)) as [[block|] rest] eqn:Hdec; [|done].
  apply pem_Decode_rest in Hdec. simpl in *. f_equal. apply IH; lia.
Qed.

(** After filing a list of certificates, a key holds the last certificate
    of the list with that key, or what it held before. *)
Lemma lookup_file_certificates g certs k :
  foldl file_certificate g certs !! k =
    match last (filter (λ cert, subjectKey cert = k) certs) with
    | Some cert => Some cert
    | None => g !! k
    end.
Proof.
  revert g. induction certs as [|cert certs IH]; intros g; simpl; [done|].
  rewrite IH, filter_cons. unfold file_certificate.
  destruct (decide (subjectKey cert = k)) as [<-|Hne].
  - rewrite last_cons. destruct (last _); [done|]. by rewrite lookup_insert_eq.
  - destruct (last _); [done|]. by rewrite lookup_insert_ne.
Qed.

(** The loop, given at least one unit of fuel per byte, runs to its end
    and files the certificates of the well-formed blocks, in order. *)
Lemma populateClientCaMap_loop_fuel fuel pemCerts ok w g :
  (length pemCerts ≤ fuel)%nat →
  clientCasBySubjectKeyId (config w) = Some g →
  ∃ w',
    populateClientCaMap_loop fuel pemCerts ok w
      = (w', Done (Some (ok || negb (length (omap certificate_of (pem_blocks fuel pemCerts)) =? 0)%nat)))
    ∧ config w' =
        set_clientCasBySubjectKeyId
          (Some (foldl file_certificate g (omap certificate_of (pem_blocks fuel pemCerts))))
          (config w).
Proof.
  revert pemCerts ok w g.
  induction fuel as [|fuel IH]; intros pemCerts ok w g Hlen Hcas.
  { destruct pemCerts; [|simpl in Hlen; lia]. exists w. simpl.
    rewrite orb_false_r, <- Hcas, set_clientCasBySubjectKeyId_id. done. }
  destruct pemCerts as [|b pemCerts].
  { exists w. simpl. rewrite orb_false_r, <- Hcas, set_clientCasBySubjectKeyId_id. done. }
  simpl populateClientCaMap_loop. simpl pem_blocks.
  destruct (pem_Decode (b :: pemCerts)) as [[block|] rest] eqn:Hdec.
  2:{ exists w. simpl. rewrite orb_false_r, <- Hcas, set_clientCasBySubjectKeyId_id. done. }
  apply pem_Decode_rest in Hdec.
  assert (Hrest : (length rest ≤ fuel)%nat) by lia.
  rewrite omap_cons.
  pose proof (eq_refl : certificate_of block = certificate_of block) as Hcert.
  unfold certificate_of at 2 in Hcert.
  destruct (_ || _); [rewrite Hcert; by apply IH|].
  destruct (x509_ParseCertificate (pem.Bytes block)) as [cert|err];
    rewrite Hcert; [|by apply IH].
  rewrite run_emit, run_load, config_add_output, Hcas, go_set_Some. lazy iota.
  rewrite run_store, config_add_output.
  match goal with |- context [populateClientCaMap_loop fuel rest true ?w1] =>
    destruct (IH rest true w1 (file_certificate g cert) Hrest eq_refl) as (w' & Hrun & Hcfg)
  end.
  exists w'. rewrite Hrun, Hcfg. simpl. by rewrite orb_true_r.
Qed.

(** C9: from a registry that has been made, [populateClientCaMap] runs to
    the end of any PEM stream and returns.  A certificate is filed exactly
    when it comes from a well-formed block of the stream, wherever in the
    stream the block is and whatever blocks precede it.  Each is filed
    under its subject key identifier, byte for byte: afterwards a key
    holds the last certificate of the stream with that identifier,
    whatever it held before, and keeps what it held if the stream has
    none.  The result is true exactly when a certificate was filed. *)
Theorem populateClientCaMap_files_well_formed_certificates pemCerts w g :
  clientCasBySubjectKeyId (config w) = Some g →
  ∃ w' ok g',
    populateClientCaMap pemCerts w = (w', Done (Some ok))
    ∧ clientCasBySubjectKeyId (config w') = Some g'
    ∧ (∀ cert, cert ∈ loaded_certificates pemCerts ↔
         ∃ block, block ∈ pem_blocks (length pemCerts) pemCerts ∧ well_formed block cert)
    ∧ (∀ cert, cert ∈ loaded_certificates pemCerts →
         ∃ cert', g' !! string_of_list_byte (x509.SubjectKeyId cert) = Some cert'
                  ∧ cert' ∈ loaded_certificates pemCerts
                  ∧ x509.SubjectKeyId cert' = x509.SubjectKeyId cert)
    ∧ (∀ k, g' !! k =
         match last (filter (λ cert, subjectKey cert = k) (loaded_certificates pemCerts)) with
         | Some cert => Some cert
         | None => g !! k
         end)
    ∧ (∀ cert1 cert2,
         subjectKey cert1 = subjectKey cert2
         ↔ x509.SubjectKeyId cert1 = x509.SubjectKeyId cert2)
    ∧ (ok = true ↔ ∃ cert, cert ∈ loaded_certificates pemCerts).
Proof.
  intros Hcas.
  destruct (populateClientCaMap_loop_fuel (length pemCerts) pemCerts false w g
              (le_n _) Hcas) as (w' & Hrun & Hcfg).
  fold (loaded_certificates pemCerts) in Hrun, Hcfg.
  exists w', (negb (length (loaded_certificates pemCerts) =? 0)%nat),
    (foldl file_certificate g (loaded_certificates pemCerts)).
  split; [exact Hrun|]. split; [by rewrite Hcfg|].
  split; [|split; [|split; [|split]]].
  - intros cert. unfold loaded_certificates. rewrite list_elem_of_omap.
    by setoid_rewrite certificate_of_well_formed.
  - intros cert Hcert. rewrite lookup_file_certificates.
    fold (subjectKey cert).
    destruct (last _) as [cert'|] eqn:Hlast.
    + apply last_Some_elem_of, list_elem_of_filter in Hlast as [Hkey Hin].
      exists cert'. by apply subjectKey_exact in Hkey.
    + apply last_None in Hlast.
      by destruct (filter_nil_not_elem_of _ _ cert Hlast).
  - apply lookup_file_certificates.
  - apply subjectKey_exact.
  - destruct (loaded_certificates pemCerts) as [|cert certs]; simpl.
    + split; [done|]. by intros [cert ?%elem_of_nil].
    + split; [|done]. intros _. exists cert. apply list_elem_of_here.
Qed.




End Registry.

(** ** The invariant across operations *)

Section Invariant.
Context `{GoLib}.



(** X16: the loop of [SetupCrls] keeps this direction of the invariant
    over any registry: what it files is bound and verified. *)
Lemma SetupCrls_loop_sound crlFiles w w' r :
  revocation_sound (config w) →
  SetupCrls_loop crlFiles w = (w', r) →
  revocation_sound (config w').
Proof.
  intros Hsound [Hcas Htable]%SetupCrls_loop_installs certList [k Hk].
  unfold bound_and_verified. rewrite Hcas.
  destruct (Htable k certList Hk) as [Hold|(f & b & ca & _ & _ & _ & <- & _ & Hca & Hsig)].
  - apply Hsound. by exists k.
  - by exists ca.
Qed.

(** ** A failed read *)

(** C5, as the code has it: when a file cannot be read and the files
    before it all read and parsed, [SetupCrls] prints the error and returns
    it without looking at the files after it.  The table is not put back:
    it was emptied on entry, and what it holds at the return comes from the
    files before the unreadable one. *)
Theorem SetupCrls_read_failure c pre crlFile post crlBytes err :
  (∀ f, f ∈ pre →
     ∃ b certList, ioutil_ReadFile f = (b, None) ∧ x509_ParseCRL b = Ok certList) →
  ioutil_ReadFile crlFile = (crlBytes, Some err) →
  ∃ w',
    SetupCrls (pre ++ crlFile :: post) (start c) = (w', Done (Some err))
    ∧ last (output w') = Some (PrintError err)
    ∧ ∀ k certList,
        go_get (CrlByAuthorityKeyId (config w')) k = Some certList →
        offered pre k certList.
Proof.
  intros Hpre Hread.
  destruct (SetupCrls_loop_completes pre (reset_world (start c)) Hpre)
    as (w1 & Hloop & _); [by eexists|].
  exists (add_output [PrintError err] w1).
  split; [|split].
  - rewrite SetupCrls_unfold, run_bind, SetupCrls_loop_app, Hloop. simpl.
    by rewrite Hread, run_emit.
  - simpl. apply last_snoc.
  - intros k certList Hk. simpl in Hk.
    apply SetupCrls_loop_installs in Hloop as [_ Htable].
    destruct (Htable k certList Hk) as [Hold|(f & b & _ & Hf & Hb & Hp & Hid & _)].
    + simpl in Hold. by rewrite lookup_empty in Hold.
    + by exists f, b.
Qed.

End Invariant.

(** ** The code on the fixture *)

Section OnFixture.
#[local] Existing Instance Fixture.lib.

Lemma SetupCrls_resets_registry_first_witness :
  SetupCrls ["good.crl"] (start Fixture.loaded) = (reloaded, Done None)
  ∧ SetupCrls_loop ["good.crl"] (reset_world (start Fixture.loaded)) = (reloaded, Done None)
  ∧ stores reloaded =
      [set_CrlByAuthorityKeyId go_make Fixture.loaded;
       set_clientCasBySubjectKeyId go_make
         (set_CrlByAuthorityKeyId go_make Fixture.loaded)]
  ∧ (∀ n, PrintLoadedCerts n ∈ output reloaded → n = 0)
  ∧ clientCasBySubjectKeyId (config reloaded) = Some ∅
  ∧ CrlByAuthorityKeyId (config reloaded) = Some ∅
  ∧ ∀ k, go_get (CrlByAuthorityKeyId (config reloaded)) k = None.
Proof.
  assert (Hrun : SetupCrls ["good.crl"] (start Fixture.loaded) = (reloaded, Done None))
    by (vm_compute; reflexivity).
  split; [exact Hrun|].
  exact (SetupCrls_resets_registry_first ["good.crl"] Fixture.loaded reloaded Hrun).
Defined.

Lemma SetupCrls_drops_list_of_registered_authority_witness :
  go_get (clientCasBySubjectKeyId (config after_tls)) (Fixture.key x01)
    = Some (Fixture.ca x01)
  ∧ CheckCRLSignature (Fixture.ca x01) (Fixture.crl x01 x01) = None
  ∧ SetupCrls ["forged.crl"; "good.crl"] (start (config after_tls))
    = ((SetupCrls ["forged.crl"; "good.crl"] (start (config after_tls))).1, Done None)
  ∧ go_get (CrlByAuthorityKeyId
              (config (SetupCrls ["forged.crl"; "good.crl"] (start (config after_tls))).1))
      (Fixture.key x01) = None
  ∧ LogNoSuchCa (Fixture.key x01)
      ∈ output (SetupCrls ["forged.crl"; "good.crl"] (start (config after_tls))).1.
Proof.
  assert (Hca : go_get (clientCasBySubjectKeyId (config after_tls))
                  (crlIssuerId (Fixture.crl x01 x01)) = Some (Fixture.ca x01))
    by (vm_compute; reflexivity).
  assert (Hrun : SetupCrls ["forged.crl"; "good.crl"] (start (config after_tls))
                 = ((SetupCrls ["forged.crl"; "good.crl"] (start (config after_tls))).1,
                    Done None))
    by (vm_compute; reflexivity).
  split; [exact Hca|]. split; [reflexivity|]. split; [exact Hrun|].
  change (Fixture.key x01) with (crlIssuerId (Fixture.crl x01 x01)).
  apply (SetupCrls_drops_list_of_registered_authority (config after_tls)
           ["forged.crl"; "good.crl"] "good.crl"
           Fixture.good_crl (Fixture.crl x01 x01) (Fixture.ca x01)).
  - apply list_elem_of_further, list_elem_of_here.
  - reflexivity.
  - reflexivity.
  - reflexivity.
  - vm_compute. discriminate.
  - exact Hca.
  - reflexivity.
  - exact Hrun.
Defined.

Lemma SetupCrls_parse_failure_panics_witness :
  (∀ f, f ∈ ["good.crl"] →
     ∃ b certList, ioutil_ReadFile f = (b, None) ∧ x509_ParseCRL b = Ok certList)
  ∧ ioutil_ReadFile "garbage.crl" = (Fixture.garbage, None)
  ∧ x509_ParseCRL Fixture.garbage = Err (errorString "asn1: structure error")
  ∧ ∃ w', SetupCrls (["good.crl"] ++ "garbage.crl" :: ["other.crl"]) (start Fixture.loaded)
            = (w', Panicked nil_dereference)
          ∧ last (output w')
            = Some (LogParseCrlFailed "garbage.crl" (errorString "asn1: structure error")).
Proof.
  assert (Hpre : ∀ f, f ∈ ["good.crl"] →
            ∃ b certList, ioutil_ReadFile f = (b, None) ∧ x509_ParseCRL b = Ok certList).
  { intros f ->%list_elem_of_singleton. eexists _, _. split; reflexivity. }
  split; [exact Hpre|]. split; [reflexivity|]. split; [reflexivity|].
  exact (SetupCrls_parse_failure_panics Fixture.loaded ["good.crl"] "garbage.crl"
           ["other.crl"] Fixture.garbage (errorString "asn1: structure error")
           Hpre eq_refl eq_refl).
Defined.


(** Over a registry that holds authorities 1 and 2 the loop files both
    lists, one after the other, in the table that readers already see:
    after the first assignment the table has the list of authority 1 and
    not yet that of authority 2. *)
Example SetupCrls_loop_fills_table_in_place :
  let w' := (SetupCrls_loop ["good.crl"; "other.crl"] (start two_authorities)).1 in
  ∃ c, stores w' !! 0 = Some c
       ∧ go_get (CrlByAuthorityKeyId c) (Fixture.key x01) = Some (Fixture.crl x01 x01)
       ∧ go_get (CrlByAuthorityKeyId c) (Fixture.key x02) = None
       ∧ go_get (CrlByAuthorityKeyId (config w')) (Fixture.key x02)
         = Some (Fixture.crl x02 x02).
Proof. eexists. repeat split; vm_compute; reflexivity. Qed.




(** A read failure does not leave the table as it was: the list that the
    table held is gone when [SetupCrls] returns the error. *)
Lemma read_failure_empties_table : ¬ read_failure_keeps_table.
Proof.
  intros Hkeeps.
  destruct (Hkeeps Fixture.loaded ["missing.crl"] "missing.crl"
              (SetupCrls ["missing.crl"] (start Fixture.loaded)).1
              (Done (Some Fixture.no_such_file))) as [_ Htable].
  - apply list_elem_of_here.
  - by eexists.
  - vm_compute. reflexivity.
  - specialize (Htable (Fixture.key x01)). vm_compute in Htable. discriminate.
Qed.

(** Nor the registry: the authority that [SetupTls] loaded is gone as
    well. *)
Example read_failure_empties_registry :
  go_get (clientCasBySubjectKeyId (config after_tls)) (Fixture.key x01)
    = Some (Fixture.ca x01)
  ∧ (SetupCrls ["missing.crl"] (start (config after_tls))).2
    = Done (Some Fixture.no_such_file)
  ∧ clientCasBySubjectKeyId (config (SetupCrls ["missing.crl"] (start (config after_tls))).1)
    = Some ∅.
Proof. repeat split; vm_compute; reflexivity. Qed.

Lemma SetupCrls_read_failure_witness :
  (∀ f, f ∈ ["good.crl"] →
     ∃ b certList, ioutil_ReadFile f = (b, None) ∧ x509_ParseCRL b = Ok certList)
  ∧ ioutil_ReadFile "missing.crl" = ([], Some Fixture.no_such_file)
  ∧ ∃ w',
      SetupCrls (["good.crl"] ++ "missing.crl" :: ["forged.crl"]) (start Fixture.loaded)
        = (w', Done (Some Fixture.no_such_file))
      ∧ last (output w') = Some (PrintError Fixture.no_such_file)
      ∧ ∀ k certList,
          go_get (CrlByAuthorityKeyId (config w')) k = Some certList →
          offered ["good.crl"] k certList.
Proof.
  assert (Hpre : ∀ f, f ∈ ["good.crl"] →
            ∃ b certList, ioutil_ReadFile f = (b, None) ∧ x509_ParseCRL b = Ok certList).
  { intros f ->%list_elem_of_singleton. eexists _, _. split; reflexivity. }
  split; [exact Hpre|]. split; [reflexivity|].
  exact (SetupCrls_read_failure Fixture.loaded ["good.crl"] "missing.crl" ["forged.crl"]
           [] Fixture.no_such_file Hpre eq_refl).
Defined.

Lemma Init_header_strategy_witness :
  TlsConfig zeroConfig ≫= tls.ClientCAs = None
  ∧ Init (start zeroConfig) = ((Init (start zeroConfig)).1, Done None)
  ∧ ∃ resolve,
      RoleFromRequest (config (Init (start zeroConfig)).1) = Some resolve
      ∧ ∀ req,
          match http.Header req !! role_header with
          | None | Some [] =>
              ∃ msg, resolve req = Done (EmptyString, Some (MissingRoleError msg))
                     ∧ IsMissingRoleError (MissingRoleError msg) = true
          | Some [v] => resolve req = Done (v, None)
          | Some (_ :: _ :: _) =>
              ∃ msg, resolve req = Done (EmptyString, Some (MissingRoleError msg))
                     ∧ IsMissingRoleError (MissingRoleError msg) = true
          end.
Proof.
  assert (Hinit : Init (start zeroConfig) = ((Init (start zeroConfig)).1, Done None))
    by (vm_compute; reflexivity).
  split; [reflexivity|]. split; [exact Hinit|].
  exact (Init_header_strategy zeroConfig _ eq_refl Hinit).
Defined.

Lemma Init_certificate_strategy_witness :
  TlsConfig (config after_tls) ≫= tls.ClientCAs = Some {| x509.certs := [Fixture.ca x01] |}
  ∧ Init (start (config after_tls)) = ((Init (start (config after_tls))).1, Done None)
  ∧ ∃ resolve,
      RoleFromRequest (config (Init (start (config after_tls))).1) = Some resolve
      ∧ ∀ req connState,
          http.TLS req = Some connState →
          match tls.PeerCertificates connState with
          | [] =>
              ∃ msg, resolve req = Done (EmptyString, Some (MissingRoleError msg))
                     ∧ IsMissingRoleError (MissingRoleError msg) = true
          | cert :: _ => resolve req = Done (pkix.CommonName (x509.Subject cert), None)
          end.
Proof.
  assert (Hpool : TlsConfig (config after_tls) ≫= tls.ClientCAs
                  = Some {| x509.certs := [Fixture.ca x01] |})
    by (vm_compute; reflexivity).
  assert (Hinit : Init (start (config after_tls))
                  = ((Init (start (config after_tls))).1, Done None))
    by (vm_compute; reflexivity).
  split; [exact Hpool|]. split; [exact Hinit|].
  exact (Init_certificate_strategy (config after_tls) _ _ Hpool Hinit).
Defined.

Lemma Init_after_SetupTls_without_client_CAs_witness :
  SetupTls "server.pem" "server.pem" [] (start zeroConfig) = (tls_only, Done None)
  ∧ Init tls_only = ((Init tls_only).1, Done None)
  ∧ (∃ tlsConfig,
       TlsConfig (config (Init tls_only).1) = Some tlsConfig
       ∧ tls.ClientAuth tlsConfig = tls.NoClientCert
       ∧ tls.ClientCAs tlsConfig = Some x509.NewCertPool)
  ∧ RoleFromRequest (config (Init tls_only).1) = Some RoleFromRequest_peerCertificate
  ∧ RoleFromRequest (config (Init tls_only).1) ≠ Some RoleFromRequest_header.
Proof.
  assert (Htls : SetupTls "server.pem" "server.pem" [] (start zeroConfig)
                 = (tls_only, Done None)) by (vm_compute; reflexivity).
  assert (Hinit : Init tls_only = ((Init tls_only).1, Done None))
    by (vm_compute; reflexivity).
  split; [exact Htls|]. split; [exact Hinit|].
  exact (Init_after_SetupTls_without_client_CAs zeroConfig "server.pem" "server.pem"
           tls_only _ Htls Hinit).
Defined.

Lemma populateClientCaMap_files_well_formed_certificates_witness :
  clientCasBySubjectKeyId (config (start Fixture.fresh)) = Some ∅
  ∧ ∃ w' ok g',
      populateClientCaMap Fixture.two_ca_pem (start Fixture.fresh) = (w', Done (Some ok))
      ∧ clientCasBySubjectKeyId (config w') = Some g'
      ∧ (∀ cert, cert ∈ loaded_certificates Fixture.two_ca_pem ↔
           ∃ block, block ∈ pem_blocks (length Fixture.two_ca_pem) Fixture.two_ca_pem
                    ∧ well_formed block cert)
      ∧ (∀ cert, cert ∈ loaded_certificates Fixture.two_ca_pem →
           ∃ cert', g' !! string_of_list_byte (x509.SubjectKeyId cert) = Some cert'
                    ∧ cert' ∈ loaded_certificates Fixture.two_ca_pem
                    ∧ x509.SubjectKeyId cert' = x509.SubjectKeyId cert)
      ∧ (∀ k, g' !! k =
           match last (filter (λ cert, subjectKey cert = k)
                         (loaded_certificates Fixture.two_ca_pem)) with
           | Some cert => Some cert
           | None => (∅ : gmap string x509.Certificate) !! k
           end)
      ∧ (∀ cert1 cert2,
           subjectKey cert1 = subjectKey cert2
           ↔ x509.SubjectKeyId cert1 = x509.SubjectKeyId cert2)
      ∧ (ok = true ↔ ∃ cert, cert ∈ loaded_certificates Fixture.two_ca_pem).
Proof.
  assert (Hcas : clientCasBySubjectKeyId (config (start Fixture.fresh)) = Some ∅)
    by (vm_compute; reflexivity).
  split; [exact Hcas|].
  exact (populateClientCaMap_files_well_formed_certificates Fixture.two_ca_pem
           (start Fixture.fresh) ∅ Hcas).
Defined.

(** The stream of the fixture: a key block, a certificate block that does
    not parse, and the certificates of authorities 1 and 2. *)
Example populateClientCaMap_two_ca_pem :
  loaded_certificates Fixture.two_ca_pem = [Fixture.ca x01; Fixture.ca x02]
  ∧ (populateClientCaMap Fixture.two_ca_pem (start Fixture.fresh)).2 = Done (Some true)
  ∧ clientCasBySubjectKeyId
      (config (populateClientCaMap Fixture.two_ca_pem (start Fixture.fresh)).1)
    = Some {[ Fixture.key x01 := Fixture.ca x01; Fixture.key x02 := Fixture.ca x02 ]}.
Proof. repeat split; vm_compute; reflexivity. Qed.

End OnFixture.

(** ** The network ranges *)

Section Ranges.
Context `{GoLibRest}.

Lemma parseRanges_loop_spec pre rangeStrings tail :
  length tail = length rangeStrings →
  parseRanges_loop (length pre) rangeStrings (pre ++ tail)
  = ((pre ++ (parsed_prefix rangeStrings).1
          ++ drop (length (parsed_prefix rangeStrings).1) tail)%list,
     (parsed_prefix rangeStrings).2).
Proof.
  revert pre tail.
  induction rangeStrings as [|str rangeStrings IH]; intros pre tail Hlen; simpl.
  { by destruct tail. }
  destruct tail as [|t tail]; [done|]. injection Hlen as Hlen.
  destruct (net_ParseCIDR str) as [ipnet|err]; [|done]. simpl.
  rewrite insert_app_r_alt, Nat.sub_diag by lia. simpl.
  rewrite (cons_middle ipnet pre tail), app_assoc.
  replace (S (length pre)) with (length (pre ++ [ipnet])) by (rewrite length_app; simpl; lia).
  rewrite (IH _ _ Hlen). by rewrite <- app_assoc.
Qed.

Lemma parseRanges_spec rangeStrings :
  parseRanges rangeStrings
  = (((parsed_prefix rangeStrings).1
        ++ replicate (length rangeStrings - length (parsed_prefix rangeStrings).1)
             net.zeroIPNet)%list,
     (parsed_prefix rangeStrings).2).
Proof.
  unfold parseRanges.
  pose proof (parseRanges_loop_spec [] rangeStrings
                (replicate (length rangeStrings) net.zeroIPNet)
                (length_replicate _ _)) as Hloop.
  simpl in Hloop. rewrite Hloop. by rewrite drop_replicate.
Qed.

Lemma parsed_prefix_length rangeStrings :
  (length (parsed_prefix rangeStrings).1 ≤ length rangeStrings)%nat.
Proof.
  induction rangeStrings as [|str rangeStrings IH]; simpl; [done|].
  destruct (net_ParseCIDR str); simpl; lia.
Qed.

Lemma parsed_prefix_all rangeStrings nets :
  Forall2 parses_to rangeStrings nets → parsed_prefix rangeStrings = (nets, None).
Proof.
  induction 1 as [|str ipnet rangeStrings nets Hstr _ IH]; simpl; [done|].
  unfold parses_to in Hstr. by rewrite Hstr, IH.
Qed.


Lemma parsed_prefix_first_error pre bad post nets err :
  Forall2 parses_to pre nets →
  net_ParseCIDR bad = Err err →
  parsed_prefix (pre ++ bad :: post) = (nets, Some err).
Proof.
  intros Hpre Hbad.
  induction Hpre as [|str ipnet pre nets Hstr _ IH]; simpl; [by rewrite Hbad|].
  unfold parses_to in Hstr. by rewrite Hstr, IH.
Qed.

(** X1: [parseRanges] returns as many networks as it was given strings,
    whether or not it returns an error. *)
Theorem parseRanges_length rangeStrings :
  length (parseRanges rangeStrings).1 = length rangeStrings.
Proof.
  rewrite parseRanges_spec. simpl. rewrite length_app, length_replicate.
  pose proof (parsed_prefix_length rangeStrings). lia.
Qed.


(** X3: when a string does not parse and those before it do,
    [SetDenyRanges] returns the error of that string, and the deny list is
    replaced all the same: by the networks of the strings before it,
    followed by a zero network for it and for each string after it.  The
    allow list and the metrics client are left alone. *)
Theorem SetDenyRanges_first_error pre bad post nets err c :
  Forall2 parses_to pre nets →
  net_ParseCIDR bad = Err err →
  SetDenyRanges (pre ++ bad :: post) c
  = ({| CidrBlacklist := nets ++ replicate (S (length post)) net.zeroIPNet;
        CidrBlacklistExemptions := CidrBlacklistExemptions c;
        StatsdClient := StatsdClient c |},
     Some err).
Proof.
  intros Hpre Hbad. unfold SetDenyRanges.
  rewrite parseRanges_spec, (parsed_prefix_first_error _ _ _ _ _ Hpre Hbad). simpl.
  rewrite length_app, <- (Forall2_length _ _ _ Hpre). simpl.
  replace (length pre + S (length post) - length pre) with (S (length post)) by lia.
  done.
Qed.

(** X4: when every string parses, [SetAllowRanges] returns no error and
    the allow list is exactly the networks of the strings, in order; the
    deny list and the metrics client are left alone. *)
Theorem SetAllowRanges_all_parse rangeStrings nets c :
  Forall2 parses_to rangeStrings nets →
  SetAllowRanges rangeStrings c
  = ({| CidrBlacklist := CidrBlacklist c;
        CidrBlacklistExemptions := nets;
        StatsdClient := StatsdClient c |},
     None).
Proof.
  intros Hall. unfold SetAllowRanges.
  rewrite parseRanges_spec, (parsed_prefix_all _ _ Hall). simpl.
  rewrite (Forall2_length _ _ _ Hall), Nat.sub_diag. simpl. by rewrite app_nil_r.
Qed.

End Ranges.

(** ** More on the authority registry *)

Section RegistryMore.
Context `{GoLib}.

Lemma file_in_world_registry w g cert :
  clientCasBySubjectKeyId (config w) = Some g →
  clientCasBySubjectKeyId (config (file_in_world w cert)) = Some (file_certificate g cert).
Proof. intros Hg. unfold file_in_world. by rewrite Hg. Qed.

Lemma file_all_in_world_registry certs w g :
  clientCasBySubjectKeyId (config w) = Some g →
  clientCasBySubjectKeyId (config (foldl file_in_world w certs))
  = Some (foldl file_certificate g certs).
Proof.
  revert w g. induction certs as [|cert certs IH]; intros w g Hg; simpl; [done|].
  apply IH. by apply file_in_world_registry.
Qed.

Lemma file_all_in_world_output certs w :
  is_Some (clientCasBySubjectKeyId (config w)) →
  output (foldl file_in_world w certs)
  = (output w ++ ((λ cert, PrintLoadedCa (x509.SubjectKeyId cert)) <$> certs))%list
  ∧ length (stores (foldl file_in_world w certs)) = (length (stores w) + length certs)%nat.
Proof.
  revert w. induction certs as [|cert certs IH]; intros w [g Hg]; simpl.
  { by rewrite app_nil_r, Nat.add_0_r. }
  destruct (IH (file_in_world w cert)) as [Hout Hst].
  { rewrite (file_in_world_registry _ _ _ Hg). by eexists. }
  rewrite Hout, Hst. unfold file_in_world. rewrite Hg. simpl.
  rewrite <- app_assoc, length_app. simpl. split; [done|lia].
Qed.

(** Apart from the registry the configuration is as it was. *)
Lemma file_all_in_world_frame certs w :
  config (foldl file_in_world w certs)
  = set_clientCasBySubjectKeyId
      (clientCasBySubjectKeyId (config (foldl file_in_world w certs))) (config w).
Proof.
  revert w. induction certs as [|cert certs IH]; intros w; simpl.
  { by rewrite set_clientCasBySubjectKeyId_id. }
  rewrite IH at 1. generalize (clientCasBySubjectKeyId
    (config (foldl file_in_world (file_in_world w cert) certs))). intros m.
  unfold file_in_world. by destruct (clientCasBySubjectKeyId (config w)).
Qed.

(** The world in which the loop ends, over a registry that is not nil. *)
Lemma populateClientCaMap_loop_world fuel pemCerts ok w :
  (length pemCerts ≤ fuel)%nat →
  is_Some (clientCasBySubjectKeyId (config w)) →
  populateClientCaMap_loop fuel pemCerts ok w
  = (foldl file_in_world w (omap certificate_of (pem_blocks fuel pemCerts)),
     Done (Some (ok || negb (length (omap certificate_of (pem_blocks fuel pemCerts)) =? 0)%nat))).
Proof.
  revert pemCerts ok w.
  induction fuel as [|fuel IH]; intros pemCerts ok w Hlen Hcas.
  { destruct pemCerts; [|simpl in Hlen; lia]. simpl. by rewrite orb_false_r. }
  destruct pemCerts as [|b pemCerts]; [simpl; by rewrite orb_false_r|].
  simpl populateClientCaMap_loop. simpl pem_blocks.
  destruct (pem_Decode (b :: pemCerts)) as [[block|] rest] eqn:Hdec;
    [|simpl; by rewrite orb_false_r].
  apply pem_Decode_rest in Hdec.
  assert (Hrest : (length rest ≤ fuel)%nat) by lia.
  rewrite omap_cons.
  pose proof (eq_refl : certificate_of block = certificate_of block) as Hcert.
  unfold certificate_of at 2 in Hcert.
  destruct (_ || _); [rewrite Hcert; by apply IH|].
  destruct (x509_ParseCertificate (pem.Bytes block)) as [cert|err];
    rewrite Hcert; [|by apply IH].
  destruct Hcas as [g Hg].
  rewrite run_emit, run_load, config_add_output, Hg, go_set_Some. lazy iota.
  rewrite run_store, config_add_output.
  rewrite IH; [|done|by eexists]. simpl foldl.
  replace (file_in_world w cert) with
    (add_store (set_clientCasBySubjectKeyId
                  (Some (<[string_of_list_byte (x509.SubjectKeyId cert) := cert]> g))
                  (config w))
       (add_output [PrintLoadedCa (x509.SubjectKeyId cert)] w))
    by (unfold file_in_world; by rewrite Hg).
  simpl. by rewrite orb_true_r.
Qed.

(** Over the nil registry the loop stops at the first well-formed
    certificate. *)
Lemma populateClientCaMap_loop_nil fuel pemCerts ok w :
  (length pemCerts ≤ fuel)%nat →
  clientCasBySubjectKeyId (config w) = None →
  populateClientCaMap_loop fuel pemCerts ok w
  = match omap certificate_of (pem_blocks fuel pemCerts) with
    | [] => (w, Done (Some ok))
    | cert :: _ =>
        (add_output [PrintLoadedCa (x509.SubjectKeyId cert)] w, Panicked nil_map_write)
    end.
Proof.
  revert pemCerts ok w.
  induction fuel as [|fuel IH]; intros pemCerts ok w Hlen Hcas.
  { destruct pemCerts; [done|simpl in Hlen; lia]. }
  destruct pemCerts as [|b pemCerts]; [done|].
  simpl populateClientCaMap_loop. simpl pem_blocks.
  destruct (pem_Decode (b :: pemCerts)) as [[block|] rest] eqn:Hdec; [|done].
  apply pem_Decode_rest in Hdec.
  assert (Hrest : (length rest ≤ fuel)%nat) by lia.
  rewrite omap_cons.
  pose proof (eq_refl : certificate_of block = certificate_of block) as Hcert.
  unfold certificate_of at 2 in Hcert.
  destruct (_ || _); [rewrite Hcert; by apply IH|].
  destruct (x509_ParseCertificate (pem.Bytes block)) as [cert|err];
    rewrite Hcert; [|by apply IH].
  by rewrite run_emit, run_load, config_add_output, Hcas.
Qed.

Lemma dom_file_certificates (g : gmap string x509.Certificate) certs :
  dom (foldl file_certificate g certs) = dom g ∪ list_to_set (subjectKey <$> certs).
Proof.
  revert g. induction certs as [|cert certs IH]; intros g; simpl.
  { set_solver. }
  rewrite IH. unfold file_certificate. rewrite dom_insert_L. set_solver.
Qed.

(** X5: on a configuration whose registry is the nil map (the zero
    [Config], before [Init] or [SetupCrls]), [populateClientCaMap] returns
    false and changes nothing when the stream has no well-formed
    certificate, and otherwise panics on the write of the first one, after
    having printed it. *)
Theorem populateClientCaMap_nil_registry pemCerts w :
  clientCasBySubjectKeyId (config w) = None →
  populateClientCaMap pemCerts w
  = match loaded_certificates pemCerts with
    | [] => (w, Done (Some false))
    | cert :: _ =>
        (add_output [PrintLoadedCa (x509.SubjectKeyId cert)] w, Panicked nil_map_write)
    end.
Proof. intros Hnil. by apply populateClientCaMap_loop_nil. Qed.

(** X6: a stream without a well-formed certificate (the empty stream, a
    stream of other blocks or of certificates that do not parse) makes
    [populateClientCaMap] return false and leaves the world as it is:
    nothing is printed and nothing is written, whatever the registry. *)
Theorem populateClientCaMap_nothing_to_load pemCerts w :
  loaded_certificates pemCerts = [] →
  populateClientCaMap pemCerts w = (w, Done (Some false)).
Proof.
  intros Hnone. unfold populateClientCaMap.
  destruct (clientCasBySubjectKeyId (config w)) as [g|] eqn:Hcas.
  - rewrite populateClientCaMap_loop_world; [|done|by eexists].
    fold (loaded_certificates pemCerts). by rewrite Hnone.
  - rewrite populateClientCaMap_loop_nil by done.
    fold (loaded_certificates pemCerts). by rewrite Hnone.
Qed.

(** X7: over a registry that is not nil, [populateClientCaMap] prints one
    line per certificate it files, in the order of the stream, and writes
    the registry once per certificate; apart from the registry the
    configuration is as it was. *)
Theorem populateClientCaMap_one_line_per_certificate pemCerts w :
  is_Some (clientCasBySubjectKeyId (config w)) →
  let w' := (populateClientCaMap pemCerts w).1 in
  output w' = (output w ++ ((λ cert, PrintLoadedCa (x509.SubjectKeyId cert))
                             <$> loaded_certificates pemCerts))%list
  ∧ length (stores w') = (length (stores w) + length (loaded_certificates pemCerts))%nat
  ∧ config w' = set_clientCasBySubjectKeyId (clientCasBySubjectKeyId (config w')) (config w).
Proof.
  intros Hcas. unfold populateClientCaMap.
  rewrite populateClientCaMap_loop_world by done.
  fold (loaded_certificates pemCerts). simpl.
  destruct (file_all_in_world_output (loaded_certificates pemCerts) w Hcas) as [Hout Hst].
  split; [done|]. split; [done|]. apply file_all_in_world_frame.
Qed.

(** X8: loading the same stream a second time changes nothing in the
    registry. *)
Theorem populateClientCaMap_twice pemCerts w g :
  clientCasBySubjectKeyId (config w) = Some g →
  let w1 := (populateClientCaMap pemCerts w).1 in
  let w2 := (populateClientCaMap pemCerts w1).1 in
  clientCasBySubjectKeyId (config w2) = clientCasBySubjectKeyId (config w1).
Proof.
  intros Hcas. unfold populateClientCaMap.
  rewrite (populateClientCaMap_loop_world _ _ _ w); [|done|by eexists].
  fold (loaded_certificates pemCerts). simpl.
  pose proof (file_all_in_world_registry (loaded_certificates pemCerts) w g Hcas) as Hg1.
  rewrite populateClientCaMap_loop_world; [|done|by eexists].
  fold (loaded_certificates pemCerts). simpl.
  rewrite (file_all_in_world_registry _ _ _ Hg1), Hg1. f_equal.
  apply map_eq. intros k. rewrite !lookup_file_certificates.
  by destruct (last _).
Qed.

(** X9: [populateClientCaMap] never removes an authority: the keys of
    the registry afterwards are those it had and the subject key
    identifiers of the certificates of the stream. *)
Theorem populateClientCaMap_keys pemCerts w g :
  clientCasBySubjectKeyId (config w) = Some g →
  ∃ g', clientCasBySubjectKeyId (config (populateClientCaMap pemCerts w).1) = Some g'
        ∧ dom g' = dom g ∪ list_to_set (subjectKey <$> loaded_certificates pemCerts).
Proof.
  intros Hcas. unfold populateClientCaMap.
  rewrite populateClientCaMap_loop_world; [|done|by eexists].
  fold (loaded_certificates pemCerts). simpl.
  rewrite (file_all_in_world_registry _ _ _ Hcas). eexists. split; [done|].
  apply dom_file_certificates.
Qed.

End RegistryMore.

(** ** More on [SetupTls] *)

Section TlsMore.
Context `{GoLib}.

(** The pool and the error that [addCertsFromFile] returns. *)
Lemma addCertsFromFile_run pool fileName w :
  is_Some (clientCasBySubjectKeyId (config w)) →
  addCertsFromFile pool fileName w
  = (foldl file_in_world w (loaded_certificates (ioutil_ReadFile fileName).1),
     Done match (ioutil_ReadFile fileName).2 with
          | Some err => (pool, Some err)
          | None =>
              ((AppendCertsFromPEM pool (ioutil_ReadFile fileName).1).1,
               if (AppendCertsFromPEM pool (ioutil_ReadFile fileName).1).2 then None
               else Some (errorString "Failed to load any certificates from file"))
          end).
Proof.
  intros Hcas. unfold addCertsFromFile.
  destruct (ioutil_ReadFile fileName) as [data err]. simpl.
  rewrite run_bind. unfold populateClientCaMap.
  rewrite populateClientCaMap_loop_world by done.
  fold (loaded_certificates data).
  destruct err as [err|]; [done|].
  destruct (AppendCertsFromPEM pool data) as [pool' ok]. by destruct ok.
Qed.

Lemma populateClientCaMap_frame pemCerts w :
  config (populateClientCaMap pemCerts w).1
  = set_clientCasBySubjectKeyId
      (clientCasBySubjectKeyId (config (populateClientCaMap pemCerts w).1)) (config w).
Proof.
  unfold populateClientCaMap.
  destruct (clientCasBySubjectKeyId (config w)) as [g|] eqn:Hcas.
  - rewrite populateClientCaMap_loop_world; [|done|by eexists]. simpl.
    apply file_all_in_world_frame.
  - rewrite populateClientCaMap_loop_nil by done.
    destruct (omap _ _); simpl; by rewrite Hcas, <- Hcas, set_clientCasBySubjectKeyId_id.
Qed.

Lemma addCertsFromFile_frame pool fileName w :
  config (addCertsFromFile pool fileName w).1
  = set_clientCasBySubjectKeyId
      (clientCasBySubjectKeyId (config (addCertsFromFile pool fileName w).1)) (config w).
Proof.
  unfold addCertsFromFile. destruct (ioutil_ReadFile fileName) as [data err].
  rewrite run_bind. pose proof (populateClientCaMap_frame data w) as Hframe.
  destruct (populateClientCaMap data w) as [w1 [ok|reason]]; simpl in *; [|done].
  destruct err as [err|]; [done|].
  destruct (AppendCertsFromPEM pool data) as [pool' loaded]. by destruct loaded.
Qed.

Lemma SetupTls_loop_frame pool clientCAFiles w :
  config (SetupTls_loop pool clientCAFiles w).1
  = set_clientCasBySubjectKeyId
      (clientCasBySubjectKeyId (config (SetupTls_loop pool clientCAFiles w).1)) (config w).
Proof.
  revert pool w. induction clientCAFiles as [|caFile clientCAFiles IH]; intros pool w; simpl.
  { by rewrite set_clientCasBySubjectKeyId_id. }
  rewrite run_bind. pose proof (addCertsFromFile_frame pool caFile w) as Hframe.
  destruct (addCertsFromFile pool caFile w) as [w1 [[pool' err]|reason]];
    simpl in *; [|done].
  destruct err as [err|]; [done|]. rewrite IH at 1.
  generalize (clientCasBySubjectKeyId (config (SetupTls_loop pool' clientCAFiles w1).1)).
  intros m. by rewrite Hframe.
Qed.

(** Over a registry that is not nil the loop over the CA files does not
    panic and the registry stays a map. *)
Lemma SetupTls_loop_done pool clientCAFiles w :
  is_Some (clientCasBySubjectKeyId (config w)) →
  ∃ w' res, SetupTls_loop pool clientCAFiles w = (w', Done res)
            ∧ is_Some (clientCasBySubjectKeyId (config w')).
Proof.
  revert pool w. induction clientCAFiles as [|caFile clientCAFiles IH];
    intros pool w Hcas; simpl.
  { by eexists _, _. }
  rewrite run_bind, addCertsFromFile_run by done.
  assert (Hcas' : is_Some (clientCasBySubjectKeyId
            (config (foldl file_in_world w
                       (loaded_certificates (ioutil_ReadFile caFile).1))))).
  { destruct Hcas as [g Hg]. rewrite (file_all_in_world_registry _ _ _ Hg). by eexists. }
  destruct (ioutil_ReadFile caFile).2 as [err|]; [by eexists _, _|].
  destruct (AppendCertsFromPEM pool _).2; [by apply IH|by eexists _, _].
Qed.


(** X11: on a configuration whose registry is the nil map, [SetupTls]
    panics as soon as the first client CA file holds a well-formed
    certificate, and no TLS configuration is stored. *)
Theorem SetupTls_nil_registry_panics certFile keyFile caFile clientCAFiles serverCert w :
  clientCasBySubjectKeyId (config w) = None →
  certFile ≠ EmptyString →
  keyFile ≠ EmptyString →
  tls_LoadX509KeyPair certFile keyFile = Ok serverCert →
  loaded_certificates (ioutil_ReadFile caFile).1 ≠ [] →
  ∃ w', SetupTls certFile keyFile (caFile :: clientCAFiles) w = (w', Panicked nil_map_write)
        ∧ config w' = config w.
Proof.
  intros Hnil Hcert%String.eqb_neq Hkey%String.eqb_neq Hpair Hloaded.
  unfold SetupTls. rewrite Hcert, Hkey, Hpair. simpl.
  rewrite !run_bind. unfold addCertsFromFile.
  destruct (ioutil_ReadFile caFile) as [data err]. simpl in Hloaded.
  rewrite run_bind. unfold populateClientCaMap.
  rewrite populateClientCaMap_loop_nil by done. fold (loaded_certificates data).
  destruct (loaded_certificates data) as [|cert certs]; [done|].
  by eexists.
Qed.

(** X12: after [Init], whatever it returned, [SetupTls] does not panic:
    it returns an error or nil. *)
Theorem SetupTls_after_Init_returns certFile keyFile clientCAFiles w w1 r :
  Init w = (w1, r) →
  ∃ w2 err, SetupTls certFile keyFile clientCAFiles w1 = (w2, Done err).
Proof.
  intros Hinit.
  assert (Hcas : is_Some (clientCasBySubjectKeyId (config w1))).
  { revert Hinit. unfold Init. destruct w as [[tlsc crl role cas lg re] out st].
    rewrite !run_load. simpl.
    destruct (regexp_Compile hostExtractPattern) as [re'|err];
      destruct crl as [crl|], cas as [cas|], lg as [lg|],
        tlsc as [[certs auth [pool|]]|];
      intros [= <- <-]; simpl; by eexists. }
  unfold SetupTls. destruct (_ || _); [by eexists _, _|].
  destruct (tls_LoadX509KeyPair certFile keyFile) as [serverCert|err];
    [|by eexists _, _].
  rewrite run_bind. destruct (negb _).
  - rewrite run_bind.
    destruct (SetupTls_loop_done x509.NewCertPool clientCAFiles w1 Hcas)
      as (w2 & [pool err] & -> & _).
    cbv [mret M_ret ret]. destruct err as [err|]; [by eexists _, _|].
    rewrite run_store. by eexists _, _.
  - cbv [mret M_ret ret]. rewrite run_store. by eexists _, _.
Qed.

(** A call that does not return nil leaves all but the registry alone. *)
Lemma SetupTls_failure_frame certFile keyFile clientCAFiles w w' r :
  SetupTls certFile keyFile clientCAFiles w = (w', r) →
  r ≠ Done None →
  config w' = set_clientCasBySubjectKeyId (clientCasBySubjectKeyId (config w')) (config w).
Proof.
  unfold SetupTls. destruct (_ || _).
  { intros [= <- <-] _. by rewrite set_clientCasBySubjectKeyId_id. }
  destruct (tls_LoadX509KeyPair certFile keyFile) as [serverCert|err].
  2:{ intros [= <- <-] _. by rewrite set_clientCasBySubjectKeyId_id. }
  rewrite run_bind. destruct (negb _).
  - rewrite run_bind.
    pose proof (SetupTls_loop_frame x509.NewCertPool clientCAFiles w) as Hframe.
    destruct (SetupTls_loop _ _ _) as [w1 [[pool err]|reason]]; simpl in Hframe.
    + cbv [mret M_ret ret]. destruct err as [err|]; [by intros [= <- <-]|].
      rewrite run_store. by intros [= <- <-].
    + by intros [= <- <-].
  - cbv [mret M_ret ret]. rewrite run_store. by intros [= <- <-].
Qed.

(** The configuration after a call that returns nil. *)
Lemma SetupTls_nil_frame certFile keyFile clientCAFiles w w' :
  SetupTls certFile keyFile clientCAFiles w = (w', Done None) →
  certFile ≠ EmptyString ∧ keyFile ≠ EmptyString
  ∧ ∃ serverCert pool,
      tls_LoadX509KeyPair certFile keyFile = Ok serverCert
      ∧ (clientCAFiles = [] → pool = x509.NewCertPool)
      ∧ config w'
        = set_TlsConfig
            (Some {| tls.Certificates := [serverCert];
                     tls.ClientAuth := match clientCAFiles with
                                       | [] => tls.NoClientCert
                                       | _ :: _ => tls.VerifyClientCertIfGiven
                                       end;
                     tls.ClientCAs := Some pool |})
            (set_clientCasBySubjectKeyId (clientCasBySubjectKeyId (config w')) (config w)).
Proof.
  unfold SetupTls.
  destruct (String.eqb_spec certFile EmptyString) as [->|Hcert]; [done|].
  destruct (String.eqb_spec keyFile EmptyString) as [->|Hkey]; [done|]. simpl.
  destruct (tls_LoadX509KeyPair certFile keyFile) as [serverCert|err]; [|done].
  rewrite run_bind. intros Hrun. split; [done|]. split; [done|].
  destruct clientCAFiles as [|caFile clientCAFiles].
  - simpl in Hrun. revert Hrun. cbv [mret M_ret ret]. rewrite run_store.
    intros [= <-]. exists serverCert, x509.NewCertPool. simpl.
    split; [done|]. split; [done|]. by destruct (config w).
  - change (negb (length (caFile :: clientCAFiles) =? 0)%nat) with true in Hrun.
    lazy iota in Hrun. rewrite run_bind in Hrun.
    pose proof (SetupTls_loop_frame x509.NewCertPool (caFile :: clientCAFiles) w) as Hframe.
    destruct (SetupTls_loop _ _ _) as [w1 [[pool err]|reason]]; simpl in Hframe; [|done].
    revert Hrun. cbv [mret M_ret ret]. destruct err as [err|]; [done|].
    rewrite run_store. intros [= <-]. exists serverCert, pool. simpl.
    split; [done|]. split; [done|]. rewrite Hframe. by destruct (config w).
Qed.

(** X13: a call of [SetupTls] that does not return nil (it returns an
    error, or panics) has changed nothing but, possibly, the registry: no
    TLS configuration was stored, and table, resolver, logger and host
    pattern are as they were. *)
Theorem SetupTls_failure_keeps_TlsConfig certFile keyFile clientCAFiles w w' r :
  SetupTls certFile keyFile clientCAFiles w = (w', r) →
  r ≠ Done None →
  config w' = set_clientCasBySubjectKeyId (clientCasBySubjectKeyId (config w')) (config w).
Proof. apply SetupTls_failure_frame. Qed.

(** X14: when [SetupTls] returns nil, both file names were given, the
    key pair loaded, and the TLS configuration stored has that pair as
    its only certificate, a pool of client CAs that is not nil, and asks
    for a client certificate ([VerifyClientCertIfGiven]) exactly when
    client CA files were given.  The rest of the configuration, the
    registry apart, is as it was. *)
Theorem SetupTls_success certFile keyFile clientCAFiles w w' :
  SetupTls certFile keyFile clientCAFiles w = (w', Done None) →
  certFile ≠ EmptyString ∧ keyFile ≠ EmptyString
  ∧ ∃ serverCert pool,
      tls_LoadX509KeyPair certFile keyFile = Ok serverCert
      ∧ (clientCAFiles = [] → pool = x509.NewCertPool)
      ∧ config w'
        = set_TlsConfig
            (Some {| tls.Certificates := [serverCert];
                     tls.ClientAuth := match clientCAFiles with
                                       | [] => tls.NoClientCert
                                       | _ :: _ => tls.VerifyClientCertIfGiven
                                       end;
                     tls.ClientCAs := Some pool |})
            (set_clientCasBySubjectKeyId (clientCasBySubjectKeyId (config w')) (config w)).
Proof. apply SetupTls_nil_frame. Qed.

(** [SetupTls] never touches the resolver. *)
Lemma SetupTls_RoleFromRequest certFile keyFile clientCAFiles w w' r :
  SetupTls certFile keyFile clientCAFiles w = (w', r) →
  RoleFromRequest (config w') = RoleFromRequest (config w).
Proof.
  intros Hrun. destruct r as [[err|]|reason].
  - by rewrite (SetupTls_failure_frame _ _ _ _ _ _ Hrun).
  - destruct (SetupTls_nil_frame _ _ _ _ _ Hrun) as (_ & _ & cert & pool & _ & _ & ->).
    done.
  - by rewrite (SetupTls_failure_frame _ _ _ _ _ _ Hrun).
Qed.

(** ** More on [Init] *)

(** X15: [Init] is idempotent: a second call after one that returned nil
    returns nil and leaves the configuration as the first left it. *)
Theorem Init_idempotent w w1 :
  Init w = (w1, Done None) →
  (Init w1).2 = Done None ∧ config (Init w1).1 = config w1.
Proof.
  unfold Init. destruct w as [[tlsc crl role cas lg re] out st].
  rewrite !run_load. simpl.
  destruct (regexp_Compile hostExtractPattern) as [re'|err];
    destruct crl as [crl|], cas as [cas|], lg as [lg|],
      tlsc as [[certs auth [pool|]]|];
    intros [= <-]; done.
Qed.

(** X17: when [SetupTls] has returned nil, with or without client CA
    files, an [Init] that follows installs the resolver that reads the
    peer certificate. *)
Theorem Init_after_SetupTls certFile keyFile clientCAFiles w w1 w2 :
  SetupTls certFile keyFile clientCAFiles w = (w1, Done None) →
  Init w1 = (w2, Done None) →
  RoleFromRequest (config w2) = Some RoleFromRequest_peerCertificate.
Proof.
  intros (_ & _ & cert & pool & _ & _ & Hcfg)%SetupTls_nil_frame Hinit.
  apply Init_run in Hinit as (Hrole & _).
  destruct (regexp_Compile hostExtractPattern); [|discriminate Hrole].
  destruct Hrole as [_ ->]. by rewrite Hcfg.
Qed.

(** X18: the order of the two calls matters.  When [Init] runs on a
    configuration without client certificate pool and [SetupTls] is
    called afterwards, the resolver stays the one that reads the role
    header, whatever [SetupTls] stores. *)
Theorem SetupTls_after_Init_keeps_header certFile keyFile clientCAFiles w w1 w2 r :
  TlsConfig (config w) ≫= tls.ClientCAs = None →
  Init w = (w1, Done None) →
  SetupTls certFile keyFile clientCAFiles w1 = (w2, r) →
  RoleFromRequest (config w2) = Some RoleFromRequest_header.
Proof.
  intros Hpool Hinit ->%SetupTls_RoleFromRequest.
  apply Init_run in Hinit as (Hrole & _).
  destruct (regexp_Compile hostExtractPattern); [|discriminate Hrole].
  destruct Hrole as [_ ->]. by rewrite Hpool.
Qed.

End TlsMore.

(** ** More on [SetupCrls] *)

Section CrlsMore.
Context `{GoLib}.

(** All that [findCrlIssuerId] prints is about extensions that do not
    decode. *)
Lemma findCrlIssuerId_output extensions w :
  ∃ out, findCrlIssuerId extensions w = (add_output out w, Done (authorityKeyId extensions))
         ∧ ∀ o, o ∈ out → ∃ err, o = PrintAuthorityKeyUnreadable err.
Proof.
  revert w. induction extensions as [|v extensions IH]; intros w; simpl.
  - exists []. rewrite add_output_nil. split; [done|]. by intros o ?%elem_of_nil.
  - destruct (asn1.Equal _ _); [|apply IH].
    destruct (asn1_Unmarshal _) as [k|err].
    + exists []. rewrite add_output_nil. split; [done|]. by intros o ?%elem_of_nil.
    + rewrite run_emit. destruct (IH (add_output [PrintAuthorityKeyUnreadable err] w))
        as (out & -> & Hout).
      exists (PrintAuthorityKeyUnreadable err :: out).
      rewrite add_output_app. split; [done|].
      intros o [->|Ho]%elem_of_cons; [by eexists|by apply Hout].
Qed.

(** Over a registry without entries the loop prints nothing that tells
    of an authority. *)
Lemma SetupCrls_loop_quiet crlFiles w :
  no_authorities (config w) →
  ∃ out r, SetupCrls_loop crlFiles w = (add_output out w, r)
           ∧ ∀ o, o ∈ out → ¬ tells_of_authority o.
Proof.
  intros Hno. revert w Hno.
  induction crlFiles as [|crlFile crlFiles IH]; intros w Hno; simpl.
  { exists [], (Done None). rewrite add_output_nil. split; [done|]. by intros o ?%elem_of_nil. }
  destruct (ioutil_ReadFile crlFile) as [crlBytes [err|]].
  { rewrite run_emit. exists [PrintError err], (Done (Some err)). split; [done|].
    intros o ->%list_elem_of_singleton. simpl. tauto. }
  destruct (x509_ParseCRL crlBytes) as [certList|err].
  2:{ rewrite run_bind, run_emit. simpl.
      exists [LogParseCrlFailed crlFile err], (Panicked nil_dereference). split; [done|].
      intros o ->%list_elem_of_singleton. simpl. tauto. }
  rewrite run_ret, run_bind.
  destruct (findCrlIssuerId_output (pkix.Extensions (pkix.TBSCertList certList)) w)
    as (out1 & -> & Hout1).
  assert (Hquiet1 : ∀ o, o ∈ out1 → ¬ tells_of_authority o).
  { intros o (err & ->)%Hout1. simpl. tauto. }
  destruct (String.eqb _ _).
  - rewrite run_emit, add_output_app.
    destruct (IH (add_output (out1 ++ [LogNoAuthorityKeyIdentifier crlFile]) w) Hno)
      as (out & r & -> & Hout).
    rewrite add_output_app. eexists _, r. split; [done|].
    intros o Ho. revert Ho.
    repeat (rewrite elem_of_app || rewrite elem_of_cons || rewrite elem_of_nil).
    intros Ho. destruct_or!; subst; simpl; try tauto;
      [by apply Hquiet1|by apply Hout].
  - rewrite run_load. simpl. rewrite Hno.
    rewrite run_emit, run_emit, !add_output_app.
    match goal with |- context [add_output ?o w] =>
      destruct (IH (add_output o w) Hno) as (out & r & -> & Hout) end.
    rewrite add_output_app. eexists _, r. split; [done|].
    intros o Ho. revert Ho.
    repeat (rewrite elem_of_app || rewrite elem_of_cons || rewrite elem_of_nil).
    intros Ho. destruct_or!; subst; simpl; try tauto;
      [by apply Hquiet1|by apply Hout].
Qed.

(** Over a registry without entries the loop runs to its end only if
    every file reads and parses. *)
Lemma SetupCrls_loop_nil_only_if crlFiles w w' :
  no_authorities (config w) →
  SetupCrls_loop crlFiles w = (w', Done None) →
  Forall reads_and_parses crlFiles.
Proof.
  intros Hno. revert w Hno.
  induction crlFiles as [|crlFile crlFiles IH]; intros w Hno; simpl; [by constructor|].
  destruct (ioutil_ReadFile crlFile) as [crlBytes [err|]] eqn:Hread.
  { by rewrite run_emit. }
  destruct (x509_ParseCRL crlBytes) as [certList|err] eqn:Hparse.
  2:{ by rewrite run_bind, run_emit. }
  assert (Hfile : reads_and_parses crlFile) by (by exists crlBytes, certList).
  rewrite run_ret, run_bind.
  destruct (findCrlIssuerId_run (pkix.Extensions (pkix.TBSCertList certList)) w)
    as (out1 & -> & _).
  destruct (String.eqb _ _).
  - rewrite run_emit. intros Hrun. constructor; [done|].
    eapply IH; [|exact Hrun]. exact Hno.
  - rewrite run_load. simpl. rewrite Hno. rewrite !run_emit.
    intros Hrun. constructor; [done|]. eapply IH; [|exact Hrun]. exact Hno.
Qed.

(** The loop never takes a key out of the table. *)
Lemma SetupCrls_loop_keeps crlFiles w w' r k :
  SetupCrls_loop crlFiles w = (w', r) →
  is_Some (go_get (CrlByAuthorityKeyId (config w)) k) →
  is_Some (go_get (CrlByAuthorityKeyId (config w')) k).
Proof.
  revert w. induction crlFiles as [|crlFile crlFiles IH]; intros w; simpl.
  { by intros [= <- <-]. }
  destruct (ioutil_ReadFile crlFile) as [crlBytes [err|]].
  { rewrite run_emit. by intros [= <- <-]. }
  destruct (x509_ParseCRL crlBytes) as [certList|err].
  2:{ rewrite run_bind, run_emit. simpl. by intros [= <- <-]. }
  rewrite run_ret, run_bind.
  destruct (findCrlIssuerId_run (pkix.Extensions (pkix.TBSCertList certList)) w)
    as (out1 & -> & _).
  destruct (String.eqb _ _).
  { rewrite run_emit. intros Hrun Hk. eapply IH; [exact Hrun|exact Hk]. }
  rewrite run_load. simpl.
  destruct (go_get _ (authorityKeyId _)) as [caCert|].
  2:{ rewrite !run_emit. intros Hrun Hk. eapply IH; [exact Hrun|exact Hk]. }
  destruct (CheckCRLSignature caCert certList).
  { rewrite run_emit. intros Hrun Hk. eapply IH; [exact Hrun|exact Hk]. }
  destruct (CrlByAuthorityKeyId (config w)) as [g|] eqn:Hg; simpl.
  2:{ intros [= <- <-]. simpl. by rewrite Hg. }
  rewrite run_store, run_emit. intros Hrun Hk. eapply IH; [exact Hrun|]. simpl.
  apply lookup_insert_is_Some'. by right.
Qed.

(** X19: whatever the files, and whether it returns nil, returns an
    error or panics, [SetupCrls] ends in the configuration it was called
    on with the table and the registry replaced by empty maps: it changes
    no other field, and nothing it reads from the files has any effect on
    the configuration. *)
Theorem SetupCrls_final_configuration crlFiles w :
  config (SetupCrls crlFiles w).1
  = set_clientCasBySubjectKeyId go_make (set_CrlByAuthorityKeyId go_make (config w)).
Proof.
  destruct (SetupCrls_run crlFiles w) as (out & r & -> & _). done.
Qed.

(** X20: [SetupCrls] returns nil exactly when every file of the list
    reads and parses.  Whether the lists name an issuer, an authority or
    carry a good signature has no influence on the result. *)
Theorem SetupCrls_returns_nil_iff crlFiles w :
  (SetupCrls crlFiles w).2 = Done None ↔ Forall reads_and_parses crlFiles.
Proof.
  destruct (SetupCrls_run crlFiles w) as (out & r & -> & Hloop & _). simpl. split.
  - intros ->. eapply SetupCrls_loop_nil_only_if; [|exact Hloop].
    apply reset_world_no_authorities.
  - intros Hall. destruct (SetupCrls_loop_completes crlFiles (reset_world w))
      as (w' & Hloop' & _); [|by eexists|].
    + intros f Hf. by apply (proj1 (Forall_forall _ _) Hall).
    + rewrite Hloop in Hloop'. by injection Hloop' as _ ->.
Qed.

(** X21: [SetupCrls] never prints that a list was loaded or that a
    signature was not trusted, and its closing check never prints that an
    authority has no list: no line of its output tells of a list that
    passed the lookup of its authority, or of an authority. *)
Theorem SetupCrls_never_tells_of_authority crlFiles w o :
  o ∈ drop (length (output w)) (output (SetupCrls crlFiles w).1) →
  ¬ tells_of_authority o.
Proof.
  destruct (SetupCrls_loop_quiet crlFiles (reset_world w)
              (reset_world_no_authorities w)) as (out & r & Hloop & Hout).
  destruct (SetupCrls_run crlFiles w) as (out' & r' & -> & Hloop' & _).
  rewrite Hloop in Hloop'. injection Hloop' as Hw _.
  assert (out' = out) as ->.
  { apply app_inv_head in Hw. congruence. }
  simpl. rewrite drop_app_length. apply Hout.
Qed.

(** X22: over any registry, a file that reads, parses, names an issuer
    for which the registry has an authority that accepts its signature is
    in the table, under its issuer id, when the loop of [SetupCrls] ends,
    provided no file after it names the same issuer: the file processed
    last wins. *)
Theorem SetupCrls_loop_last_wins pre crlFile post crlBytes certList caCert w w' :
  is_Some (CrlByAuthorityKeyId (config w)) →
  ioutil_ReadFile crlFile = (crlBytes, None) →
  x509_ParseCRL crlBytes = Ok certList →
  crlIssuerId certList ≠ EmptyString →
  go_get (clientCasBySubjectKeyId (config w)) (crlIssuerId certList) = Some caCert →
  CheckCRLSignature caCert certList = None →
  (∀ f b l, f ∈ post → ioutil_ReadFile f = (b, None) → x509_ParseCRL b = Ok l →
     crlIssuerId l ≠ crlIssuerId certList) →
  SetupCrls_loop (pre ++ crlFile :: post) w = (w', Done None) →
  go_get (CrlByAuthorityKeyId (config w')) (crlIssuerId certList) = Some certList.
Proof.
  intros Htable Hread Hparse Hid Hca Hsig Hpost. rewrite SetupCrls_loop_app.
  destruct (SetupCrls_loop pre w) as [w1 [[err|]|reason]] eqn:Hpre; [done| |done].
  pose proof (SetupCrls_loop_installs _ _ _ _ Hpre) as [Hcas1 _].
  assert (Htable1 : is_Some (CrlByAuthorityKeyId (config w1))).
  { clear -Hpre Htable. revert w Hpre Htable.
    induction pre as [|f pre IH]; intros w; simpl; [by intros [= <-]|].
    destruct (ioutil_ReadFile f) as [b [e|]]; [by rewrite run_emit|].
    destruct (x509_ParseCRL b) as [l|e]; [|by rewrite run_bind, run_emit].
    rewrite run_ret, run_bind.
    destruct (findCrlIssuerId_run (pkix.Extensions (pkix.TBSCertList l)) w)
      as (out1 & -> & _).
    destruct (String.eqb _ _).
    { rewrite run_emit. intros Hrun Ht. eapply IH; [exact Hrun|exact Ht]. }
    rewrite run_load. simpl.
    destruct (go_get _ (authorityKeyId _)) as [ca|].
    2:{ rewrite !run_emit. intros Hrun Ht. eapply IH; [exact Hrun|exact Ht]. }
    destruct (CheckCRLSignature ca l).
    { rewrite run_emit. intros Hrun Ht. eapply IH; [exact Hrun|exact Ht]. }
    destruct (CrlByAuthorityKeyId (config w)) as [g|]; simpl; [|done].
    rewrite run_store, run_emit. intros Hrun _. eapply IH; [exact Hrun|]. by eexists. }
  simpl SetupCrls_loop. rewrite Hread, Hparse, run_ret, run_bind.
  destruct (findCrlIssuerId_run (pkix.Extensions (pkix.TBSCertList certList)) w1)
    as (out1 & -> & _).
  fold (crlIssuerId certList). apply String.eqb_neq in Hid. rewrite Hid.
  rewrite run_load, config_add_output, Hcas1, Hca, Hsig.
  destruct Htable1 as [g Hg]. rewrite Hg, go_set_Some. lazy iota.
  rewrite run_store, run_emit. intros Hrun.
  pose proof (SetupCrls_loop_installs _ _ _ _ Hrun) as [_ Hfrom].
  destruct (SetupCrls_loop_keeps _ _ _ _ (crlIssuerId certList) Hrun) as [l Hl].
  { simpl. rewrite lookup_insert_eq. by eexists. }
  destruct (Hfrom _ _ Hl) as [Hold|(f & b & ca & Hf & Hb & Hp & Hk & _)].
  - simpl in Hold. rewrite lookup_insert_eq in Hold. by rewrite Hl, Hold.
  - by destruct (Hpost f b l Hf Hb Hp).
Qed.

(** X23: over any registry, the loop of [SetupCrls] never takes a list
    out of the table: a key that holds a list before the loop holds one
    when the loop stops, however it stops. *)
Theorem SetupCrls_loop_never_removes crlFiles w k :
  is_Some (go_get (CrlByAuthorityKeyId (config w)) k) →
  is_Some (go_get (CrlByAuthorityKeyId (config (SetupCrls_loop crlFiles w).1)) k).
Proof.
  intros Hk. destruct (SetupCrls_loop crlFiles w) as [w' r] eqn:Hrun.
  by apply (SetupCrls_loop_keeps _ _ _ _ _ Hrun).
Qed.

(** X24: [findCrlIssuerId] takes the issuer id from the first extension
    that is an authority key identifier and decodes; the extensions
    before it, which are of another kind or do not decode, and all those
    after it have no influence, and the configuration is not touched. *)
Theorem findCrlIssuerId_first_decodable pre v post key w :
  (∀ u key', u ∈ pre → ¬ decodes_to u key') →
  decodes_to v key →
  ∃ out, findCrlIssuerId (pre ++ v :: post) w
         = (add_output out w, Done (string_of_list_byte (authKeyId_Id key))).
Proof.
  intros Hpre [Hoid Hkey].
  destruct (findCrlIssuerId_run (pre ++ v :: post) w) as (out & -> & _).
  exists out. do 2 f_equal. clear w out.
  induction pre as [|u pre IH]; simpl.
  - by rewrite Hoid, Hkey.
  - assert (Hpre' : ∀ u' key', u' ∈ pre → ¬ decodes_to u' key').
    { intros u' key' Hu'. apply Hpre. by apply list_elem_of_further. }
    destruct (asn1.Equal (pkix.Id u) _) eqn:Hu; [|by apply IH].
    destruct (asn1_Unmarshal (pkix.Value u)) as [key'|err] eqn:Hdec; [|by apply IH].
    destruct (Hpre u key'); [apply list_elem_of_here|done].
Qed.

End CrlsMore.

(** ** More on the resolvers *)

(** The resolver that reads the role header never panics.  It
    returns a role and no error, or the empty role and an error that
    [IsMissingRoleError] recognises; and it does not look at the TLS
    connection of the request. *)
Lemma RoleFromRequest_header_returns req :
  (∃ role, RoleFromRequest_header req = Done (role, None))
  ∨ (∃ err, RoleFromRequest_header req = Done (EmptyString, Some err)
            ∧ IsMissingRoleError err = true).
Proof.
  unfold RoleFromRequest_header.
  destruct (http.Header req !! role_header) as [[|v [|v' vs]]|]; simpl; eauto.
Qed.

(** X25: the resolver that reads the peer certificate panics exactly on
    a request without TLS connection state; on every other request it
    returns a role and no error, or the empty role and an error that
    [IsMissingRoleError] recognises. *)
Theorem RoleFromRequest_peerCertificate_panics_iff req :
  ((∃ reason, RoleFromRequest_peerCertificate req = Panicked reason)
   ↔ http.TLS req = None)
  ∧ (is_Some (http.TLS req) →
     (∃ role, RoleFromRequest_peerCertificate req = Done (role, None))
     ∨ (∃ err, RoleFromRequest_peerCertificate req = Done (EmptyString, Some err)
               ∧ IsMissingRoleError err = true)).
Proof.
  unfold RoleFromRequest_peerCertificate.
  destruct (http.TLS req) as [connState|]; simpl.
  - destruct (tls.PeerCertificates connState) as [|cert certs]; simpl.
    + split; [split; [by intros [? ?]|done]|]. intros _. right. by eexists.
    + split; [split; [by intros [? ?]|done]|]. intros _. left. by eexists.
  - split; [split; [done|by eexists]|]. by intros [? ?].
Qed.

(** ** The metrics client *)

Section Statsd.
Context `{GoLibRest}.

(** [SetupStatsd] with an empty address removes the metrics client
    and returns nil; with an address for which [statsd.New] fails it
    returns that error and keeps the client that was there; otherwise it
    installs the new client with the default namespace, whatever
    namespace the client came with.  It never touches the network
    ranges. *)
Lemma SetupStatsd_client addr c :
  let '(c', err) := SetupStatsd addr c in
  CidrBlacklist c' = CidrBlacklist c
  ∧ CidrBlacklistExemptions c' = CidrBlacklistExemptions c
  ∧ if String.eqb addr EmptyString then StatsdClient c' = None ∧ err = None
    else match statsd_New addr with
         | Err e => StatsdClient c' = StatsdClient c ∧ err = Some e
         | Ok client =>
             StatsdClient c'
             = Some {| statsd.Namespace := DefaultStatsdNamespace;
                       statsd.Tags := statsd.Tags client |}
             ∧ err = None
         end.
Proof.
  unfold SetupStatsd, SetupStatsdWithNamespace.
  destruct (String.eqb addr EmptyString); [done|].
  by destruct (statsd_New addr).
Qed.

End Statsd.

(** ** More runs on the fixtures *)

Section OnFixtureMore.
#[local] Existing Instance Fixture.lib.
#[local] Existing Instance FixtureRest.lib.

Lemma SetDenyRanges_first_error_witness :
  Forall2 parses_to ["10.0.0.0/8"] [FixtureRest.ten]
  ∧ net_ParseCIDR "10.0.0.0/33" = Err FixtureRest.invalid_cidr
  ∧ SetDenyRanges (["10.0.0.0/8"] ++ "10.0.0.0/33" :: ["192.168.0.0/16"])
      FixtureRest.configured
    = ({| CidrBlacklist := [FixtureRest.ten] ++ replicate 2 net.zeroIPNet;
          CidrBlacklistExemptions := CidrBlacklistExemptions FixtureRest.configured;
          StatsdClient := StatsdClient FixtureRest.configured |},
       Some FixtureRest.invalid_cidr).
Proof.
  assert (Hpre : Forall2 parses_to ["10.0.0.0/8"] [FixtureRest.ten])
    by (repeat constructor).
  split; [exact Hpre|]. split; [reflexivity|].
  exact (SetDenyRanges_first_error ["10.0.0.0/8"] "10.0.0.0/33" ["192.168.0.0/16"]
           [FixtureRest.ten] FixtureRest.invalid_cidr FixtureRest.configured
           Hpre eq_refl).
Defined.

Lemma SetAllowRanges_all_parse_witness :
  Forall2 parses_to ["10.0.0.0/8"; "192.168.0.0/16"] [FixtureRest.ten; FixtureRest.lan]
  ∧ SetAllowRanges ["10.0.0.0/8"; "192.168.0.0/16"] FixtureRest.configured
    = ({| CidrBlacklist := CidrBlacklist FixtureRest.configured;
          CidrBlacklistExemptions := [FixtureRest.ten; FixtureRest.lan];
          StatsdClient := StatsdClient FixtureRest.configured |},
       None).
Proof.
  assert (Hall : Forall2 parses_to ["10.0.0.0/8"; "192.168.0.0/16"]
                   [FixtureRest.ten; FixtureRest.lan]) by (repeat constructor).
  split; [exact Hall|].
  exact (SetAllowRanges_all_parse _ _ FixtureRest.configured Hall).
Defined.

Lemma populateClientCaMap_nil_registry_witness :
  clientCasBySubjectKeyId (config (start zeroConfig)) = None
  ∧ populateClientCaMap Fixture.two_ca_pem (start zeroConfig)
    = match loaded_certificates Fixture.two_ca_pem with
      | [] => (start zeroConfig, Done (Some false))
      | cert :: _ =>
          (add_output [PrintLoadedCa (x509.SubjectKeyId cert)] (start zeroConfig),
           Panicked nil_map_write)
      end.
Proof.
  split; [reflexivity|].
  exact (populateClientCaMap_nil_registry Fixture.two_ca_pem (start zeroConfig) eq_refl).
Defined.

Lemma populateClientCaMap_nothing_to_load_witness :
  loaded_certificates [x4b; x09; x43; x00] = []
  ∧ populateClientCaMap [x4b; x09; x43; x00] (start Fixture.loaded)
    = (start Fixture.loaded, Done (Some false)).
Proof.
  assert (Hnone : loaded_certificates [x4b; x09; x43; x00] = []) by reflexivity.
  split; [exact Hnone|].
  exact (populateClientCaMap_nothing_to_load _ (start Fixture.loaded) Hnone).
Defined.

Lemma populateClientCaMap_one_line_per_certificate_witness :
  is_Some (clientCasBySubjectKeyId (config (start Fixture.fresh)))
  ∧ let w' := (populateClientCaMap Fixture.two_ca_pem (start Fixture.fresh)).1 in
    output w' = (output (start Fixture.fresh)
                 ++ ((λ cert, PrintLoadedCa (x509.SubjectKeyId cert))
                       <$> loaded_certificates Fixture.two_ca_pem))%list
    ∧ length (stores w')
      = (length (stores (start Fixture.fresh))
         + length (loaded_certificates Fixture.two_ca_pem))%nat
    ∧ config w' = set_clientCasBySubjectKeyId (clientCasBySubjectKeyId (config w'))
                    (config (start Fixture.fresh)).
Proof.
  assert (Hcas : is_Some (clientCasBySubjectKeyId (config (start Fixture.fresh))))
    by (by eexists).
  split; [exact Hcas|].
  exact (populateClientCaMap_one_line_per_certificate Fixture.two_ca_pem
           (start Fixture.fresh) Hcas).
Defined.

Lemma populateClientCaMap_twice_witness :
  clientCasBySubjectKeyId (config (start Fixture.fresh)) = Some ∅
  ∧ let w1 := (populateClientCaMap Fixture.two_ca_pem (start Fixture.fresh)).1 in
    let w2 := (populateClientCaMap Fixture.two_ca_pem w1).1 in
    clientCasBySubjectKeyId (config w2) = clientCasBySubjectKeyId (config w1).
Proof.
  assert (Hcas : clientCasBySubjectKeyId (config (start Fixture.fresh)) = Some ∅)
    by (vm_compute; reflexivity).
  split; [exact Hcas|].
  exact (populateClientCaMap_twice Fixture.two_ca_pem (start Fixture.fresh) ∅ Hcas).
Defined.

Lemma populateClientCaMap_keys_witness :
  clientCasBySubjectKeyId (config (start Fixture.fresh)) = Some ∅
  ∧ ∃ g', clientCasBySubjectKeyId
            (config (populateClientCaMap Fixture.two_ca_pem (start Fixture.fresh)).1)
          = Some g'
          ∧ dom g' = dom (∅ : gmap string x509.Certificate)
                     ∪ list_to_set (subjectKey <$> loaded_certificates Fixture.two_ca_pem).
Proof.
  assert (Hcas : clientCasBySubjectKeyId (config (start Fixture.fresh)) = Some ∅)
    by (vm_compute; reflexivity).
  split; [exact Hcas|].
  exact (populateClientCaMap_keys Fixture.two_ca_pem (start Fixture.fresh) ∅ Hcas).
Defined.


Lemma SetupTls_nil_registry_panics_witness :
  clientCasBySubjectKeyId (config (start zeroConfig)) = None
  ∧ tls_LoadX509KeyPair "server.pem" "server.pem"
    = Ok {| tls.Certificate_chain := [[x4b; x07]] |}
  ∧ loaded_certificates (ioutil_ReadFile "ca.pem").1 ≠ []
  ∧ ∃ w', SetupTls "server.pem" "server.pem" ("ca.pem" :: []) (start zeroConfig)
            = (w', Panicked nil_map_write)
          ∧ config w' = config (start zeroConfig).
Proof.
  assert (Hloaded : loaded_certificates (ioutil_ReadFile "ca.pem").1 ≠ [])
    by (vm_compute; discriminate).
  split; [reflexivity|]. split; [reflexivity|]. split; [exact Hloaded|].
  apply (SetupTls_nil_registry_panics "server.pem" "server.pem" "ca.pem" []
           {| tls.Certificate_chain := [[x4b; x07]] |} (start zeroConfig));
    [reflexivity|discriminate|discriminate|reflexivity|exact Hloaded].
Defined.

Lemma SetupTls_after_Init_returns_witness :
  Init (start zeroConfig) = ((Init (start zeroConfig)).1, Done None)
  ∧ ∃ w2 err, SetupTls "server.pem" "server.pem" ["ca.pem"] (Init (start zeroConfig)).1
              = (w2, Done err).
Proof.
  assert (Hinit : Init (start zeroConfig) = ((Init (start zeroConfig)).1, Done None))
    by (vm_compute; reflexivity).
  split; [exact Hinit|].
  exact (SetupTls_after_Init_returns "server.pem" "server.pem" ["ca.pem"] _ _ _ Hinit).
Defined.

Lemma SetupTls_failure_keeps_TlsConfig_witness :
  SetupTls "server.pem" "server.pem" ["ca.pem"; "missing.pem"] (start Fixture.fresh)
    = (half_loaded, Done (Some Fixture.no_such_file))
  ∧ Done (Some Fixture.no_such_file) ≠ Done (@None error)
  ∧ config half_loaded
    = set_clientCasBySubjectKeyId (clientCasBySubjectKeyId (config half_loaded))
        (config (start Fixture.fresh)).
Proof.
  assert (Hrun : SetupTls "server.pem" "server.pem" ["ca.pem"; "missing.pem"]
                   (start Fixture.fresh)
                 = (half_loaded, Done (Some Fixture.no_such_file)))
    by (vm_compute; reflexivity).
  assert (Hfail : Done (Some Fixture.no_such_file) ≠ Done (@None error))
    by discriminate.
  split; [exact Hrun|]. split; [exact Hfail|].
  exact (SetupTls_failure_keeps_TlsConfig _ _ _ _ _ _ Hrun Hfail).
Defined.

(** The failed call has left authority 1 in the registry. *)
Example SetupTls_failure_changes_registry :
  go_get (clientCasBySubjectKeyId (config half_loaded)) (Fixture.key x01)
    = Some (Fixture.ca x01)
  ∧ TlsConfig (config half_loaded) = None.
Proof. split; vm_compute; reflexivity. Qed.

Lemma SetupTls_success_witness :
  SetupTls "server.pem" "server.pem" ["ca.pem"] (start Fixture.fresh)
    = (after_tls, Done None)
  ∧ "server.pem" ≠ EmptyString ∧ "server.pem" ≠ EmptyString
  ∧ ∃ serverCert pool,
      tls_LoadX509KeyPair "server.pem" "server.pem" = Ok serverCert
      ∧ (["ca.pem"] = [] → pool = x509.NewCertPool)
      ∧ config after_tls
        = set_TlsConfig
            (Some {| tls.Certificates := [serverCert];
                     tls.ClientAuth := tls.VerifyClientCertIfGiven;
                     tls.ClientCAs := Some pool |})
            (set_clientCasBySubjectKeyId (clientCasBySubjectKeyId (config after_tls))
               (config (start Fixture.fresh))).
Proof.
  assert (Hrun : SetupTls "server.pem" "server.pem" ["ca.pem"] (start Fixture.fresh)
                 = (after_tls, Done None)) by (vm_compute; reflexivity).
  split; [exact Hrun|].
  exact (SetupTls_success "server.pem" "server.pem" ["ca.pem"] _ _ Hrun).
Defined.

Lemma Init_idempotent_witness :
  Init (start zeroConfig) = ((Init (start zeroConfig)).1, Done None)
  ∧ (Init (Init (start zeroConfig)).1).2 = Done None
  ∧ config (Init (Init (start zeroConfig)).1).1 = config (Init (start zeroConfig)).1.
Proof.
  assert (Hinit : Init (start zeroConfig) = ((Init (start zeroConfig)).1, Done None))
    by (vm_compute; reflexivity).
  split; [exact Hinit|].
  exact (Init_idempotent _ _ Hinit).
Defined.

Lemma Init_after_SetupTls_witness :
  SetupTls "server.pem" "server.pem" ["ca.pem"] (start Fixture.fresh)
    = (after_tls, Done None)
  ∧ Init after_tls = ((Init after_tls).1, Done None)
  ∧ RoleFromRequest (config (Init after_tls).1) = Some RoleFromRequest_peerCertificate.
Proof.
  assert (Hrun : SetupTls "server.pem" "server.pem" ["ca.pem"] (start Fixture.fresh)
                 = (after_tls, Done None)) by (vm_compute; reflexivity).
  assert (Hinit : Init after_tls = ((Init after_tls).1, Done None))
    by (vm_compute; reflexivity).
  split; [exact Hrun|]. split; [exact Hinit|].
  exact (Init_after_SetupTls _ _ _ _ _ _ Hrun Hinit).
Defined.

Lemma SetupTls_after_Init_keeps_header_witness :
  TlsConfig (config (start zeroConfig)) ≫= tls.ClientCAs = None
  ∧ Init (start zeroConfig) = ((Init (start zeroConfig)).1, Done None)
  ∧ SetupTls "server.pem" "server.pem" ["ca.pem"] (Init (start zeroConfig)).1
    = ((SetupTls "server.pem" "server.pem" ["ca.pem"] (Init (start zeroConfig)).1).1,
       Done None)
  ∧ RoleFromRequest
      (config (SetupTls "server.pem" "server.pem" ["ca.pem"] (Init (start zeroConfig)).1).1)
    = Some RoleFromRequest_header.
Proof.
  assert (Hinit : Init (start zeroConfig) = ((Init (start zeroConfig)).1, Done None))
    by (vm_compute; reflexivity).
  assert (Hrun : SetupTls "server.pem" "server.pem" ["ca.pem"] (Init (start zeroConfig)).1
                 = ((SetupTls "server.pem" "server.pem" ["ca.pem"]
                       (Init (start zeroConfig)).1).1, Done None))
    by (vm_compute; reflexivity).
  assert (Hpool : TlsConfig (config (start zeroConfig)) ≫= tls.ClientCAs = None)
    by reflexivity.
  split; [exact Hpool|]. split; [exact Hinit|]. split; [exact Hrun|].
  exact (SetupTls_after_Init_keeps_header _ _ _ (start zeroConfig) _ _ _
           Hpool Hinit Hrun).
Defined.

Lemma SetupCrls_never_tells_of_authority_witness :
  LogNoSuchCa (Fixture.key x01)
    ∈ drop (length (output (start (config after_tls))))
        (output (SetupCrls ["good.crl"] (start (config after_tls))).1)
  ∧ ¬ tells_of_authority (LogNoSuchCa (Fixture.key x01)).
Proof.
  assert (Hin : LogNoSuchCa (Fixture.key x01)
                  ∈ drop (length (output (start (config after_tls))))
                      (output (SetupCrls ["good.crl"] (start (config after_tls))).1)).
  { apply (list_elem_of_lookup_2 _ 0). vm_compute. reflexivity. }
  split; [exact Hin|].
  exact (SetupCrls_never_tells_of_authority ["good.crl"] (start (config after_tls)) _ Hin).
Defined.

Lemma SetupCrls_loop_last_wins_witness :
  is_Some (CrlByAuthorityKeyId (config (start two_authorities)))
  ∧ go_get (clientCasBySubjectKeyId (config (start two_authorities)))
      (crlIssuerId (Fixture.crl x01 x01)) = Some (Fixture.ca x01)
  ∧ SetupCrls_loop (["forged.crl"] ++ "good.crl" :: ["other.crl"]) (start two_authorities)
    = ((SetupCrls_loop (["forged.crl"] ++ "good.crl" :: ["other.crl"])
          (start two_authorities)).1, Done None)
  ∧ go_get (CrlByAuthorityKeyId
              (config (SetupCrls_loop (["forged.crl"] ++ "good.crl" :: ["other.crl"])
                         (start two_authorities)).1))
      (crlIssuerId (Fixture.crl x01 x01))
    = Some (Fixture.crl x01 x01).
Proof.
  assert (Htable : is_Some (CrlByAuthorityKeyId (config (start two_authorities))))
    by (by eexists).
  assert (Hca : go_get (clientCasBySubjectKeyId (config (start two_authorities)))
                  (crlIssuerId (Fixture.crl x01 x01)) = Some (Fixture.ca x01))
    by (vm_compute; reflexivity).
  assert (Hrun : SetupCrls_loop (["forged.crl"] ++ "good.crl" :: ["other.crl"])
                   (start two_authorities)
                 = ((SetupCrls_loop (["forged.crl"] ++ "good.crl" :: ["other.crl"])
                       (start two_authorities)).1, Done None))
    by (vm_compute; reflexivity).
  split; [exact Htable|]. split; [exact Hca|]. split; [exact Hrun|].
  apply (SetupCrls_loop_last_wins ["forged.crl"] "good.crl" ["other.crl"]
           Fixture.good_crl (Fixture.crl x01 x01) (Fixture.ca x01)
           (start two_authorities) _ Htable).
  - reflexivity.
  - reflexivity.
  - vm_compute. discriminate.
  - exact Hca.
  - reflexivity.
  - intros f b l ->%list_elem_of_singleton [= <-] [= <-]. vm_compute. discriminate.
  - exact Hrun.
Defined.

Lemma SetupCrls_loop_never_removes_witness :
  is_Some (go_get (CrlByAuthorityKeyId (config (start Fixture.loaded))) (Fixture.key x01))
  ∧ is_Some (go_get (CrlByAuthorityKeyId
                       (config (SetupCrls_loop ["forged.crl"; "missing.crl"]
                                  (start Fixture.loaded)).1))
               (Fixture.key x01)).
Proof.
  assert (Hk : is_Some (go_get (CrlByAuthorityKeyId (config (start Fixture.loaded)))
                          (Fixture.key x01))).
  { exists (Fixture.crl x01 x01). vm_compute. reflexivity. }
  split; [exact Hk|].
  exact (SetupCrls_loop_never_removes ["forged.crl"; "missing.crl"]
           (start Fixture.loaded) _ Hk).
Defined.

Lemma findCrlIssuerId_first_decodable_witness :
  (∀ u key', u ∈ [crl_number; empty_aki] → ¬ decodes_to u key')
  ∧ decodes_to (Fixture.aki_extension x01) {| authKeyId_Id := [x01] |}
  ∧ ∃ out, findCrlIssuerId ([crl_number; empty_aki] ++ Fixture.aki_extension x01
                              :: [Fixture.aki_extension x02])
             (start Fixture.fresh)
           = (add_output out (start Fixture.fresh), Done (string_of_list_byte [x01])).
Proof.
  assert (Hpre : ∀ u key', u ∈ [crl_number; empty_aki] → ¬ decodes_to u key').
  { intros u key' Hu [Hoid Hdec]. apply elem_of_cons in Hu as [->|Hu].
    - vm_compute in Hoid. discriminate.
    - apply list_elem_of_singleton in Hu as ->. vm_compute in Hdec. discriminate. }
  assert (Hv : decodes_to (Fixture.aki_extension x01) {| authKeyId_Id := [x01] |})
    by (split; reflexivity).
  split; [exact Hpre|]. split; [exact Hv|].
  exact (findCrlIssuerId_first_decodable [crl_number; empty_aki]
           (Fixture.aki_extension x01) [Fixture.aki_extension x02]
           {| authKeyId_Id := [x01] |} (start Fixture.fresh) Hpre Hv).
Defined.

Lemma SetupCrls_loop_sound_witness :
  revocation_sound (config (start two_authorities))
  ∧ SetupCrls_loop ["good.crl"; "forged.crl"; "other.crl"] (start two_authorities)
    = ((SetupCrls_loop ["good.crl"; "forged.crl"; "other.crl"] (start two_authorities)).1,
       Done None)
  ∧ revocation_sound
      (config (SetupCrls_loop ["good.crl"; "forged.crl"; "other.crl"]
                 (start two_authorities)).1).
Proof.
  assert (Hsound : revocation_sound (config (start two_authorities))).
  { intros certList [k Hk]. vm_compute in Hk. discriminate. }
  assert (Hrun : SetupCrls_loop ["good.crl"; "forged.crl"; "other.crl"]
                   (start two_authorities)
                 = ((SetupCrls_loop ["good.crl"; "forged.crl"; "other.crl"]
                       (start two_authorities)).1, Done None))
    by (vm_compute; reflexivity).
  split; [exact Hsound|]. split; [exact Hrun|].
  exact (SetupCrls_loop_sound _ _ _ _ Hsound Hrun).
Defined.

End OnFixtureMore.
